(** * market-monitor: the session-aware price resolver, the translation
      cache and the refresh loop of [all_with_news.py]

    The Python program is embedded function by function.  Dictionaries are
    [gmap]s, [None] is [option]'s [None], exceptions are the left summand of
    a result type, and everything the program reads from the outside world
    (HTTP replies, the translation backend, key presses, the clock) is an
    explicit input of the function that reads it. *)

From Stdlib Require Import ZArith QArith String Ascii List Bool Lia.
From Stdlib Require Import DecimalString DecimalZ.
From Stdlib Require Import Sorted Permutation OrdersEx RelationClasses.
From stdpp Require Import base option gmap strings list fin_maps.
Import ListNotations.

Local Open Scope string_scope.
Local Open Scope Z_scope.

(** ** Python values shared by all modules *)

(** [d.get(k)] on a dictionary whose values may themselves be [None]: a
    missing key and a key bound to [None] are indistinguishable. *)
Definition dict_get {V : Type} (d : gmap string (option V)) (k : string)
  : option V :=
  match d !! k with
  | Some v => v
  | None => None
  end.

(** * SessionClock and PriceResolver *)

Module PriceResolver.

Inductive session := PreMarket | Regular | AfterHours | Overnight.

(** [detect_session]: [h = hour + minute / 60] compared with 4, 9.5, 16 and
    20; the comparisons are carried out in minutes since midnight. *)
Definition session_of_clock (hour minute : Z) : session :=
  let h60 := 60 * hour + minute in
  if (4 * 60 <=? h60) && (h60 <? 570) then PreMarket
  else if (570 <=? h60) && (h60 <? 16 * 60) then Regular
  else if (16 * 60 <=? h60) && (h60 <? 20 * 60) then AfterHours
  else Overnight.

Definition active_price_key (s : session) : string :=
  match s with
  | PreMarket => "preMarketPrice"
  | Regular => "regularMarketPrice"
  | AfterHours => "postMarketPrice"
  | Overnight => "overnightMarketPrice"
  end.

Definition active_change_key (s : session) : string :=
  match s with
  | PreMarket => "preMarketChangePercent"
  | Regular => "regularMarketChangePercent"
  | AfterHours => "postMarketChangePercent"
  | Overnight => "overnightMarketChangePercent"
  end.

Definition detect_session (hour minute : Z) : session * string * string :=
  let s := session_of_clock hour minute in
  (s, active_price_key s, active_change_key s).

Definition field_pairs : list (string * string) :=
  [ ("preMarketPrice", "preMarketChangePercent");
    ("regularMarketPrice", "regularMarketChangePercent");
    ("postMarketPrice", "postMarketChangePercent");
    ("overnightMarketPrice", "overnightMarketChangePercent") ].

(** The [if/elif/else] chain on [active_price_key]; any key other than the
    first three takes the last branch. *)
Definition fallback_order (price_key : string) : list string :=
  if String.eqb price_key "preMarketPrice" then
    ["overnightMarketPrice"; "regularMarketPrice"; "postMarketPrice"]
  else if String.eqb price_key "regularMarketPrice" then
    ["preMarketPrice"; "postMarketPrice"; "overnightMarketPrice"]
  else if String.eqb price_key "postMarketPrice" then
    ["regularMarketPrice"; "preMarketPrice"; "overnightMarketPrice"]
  else
    ["postMarketPrice"; "regularMarketPrice"; "preMarketPrice"].

(** The inner [for pair in field_pairs] loop with its [break]. *)
Fixpoint matching_cf (pairs : list (string * string)) (pf : string)
  : option string :=
  match pairs with
  | [] => None
  | pr :: rest =>
      if String.eqb (fst pr) pf then Some (snd pr)
      else matching_cf rest pf
  end.

Section Resolve.

(** The numeric payload of a quote field (a Python float). *)
Context {V : Type}.

(** The outer [for pf in fallback_order] loop with its [break]; the two
    accumulators are the local variables [active_price], [active_change]. *)
Fixpoint walk_fallback (q : gmap string (option V)) (order : list string)
    (active_price active_change : option V) : option V * option V :=
  match order with
  | [] => (active_price, active_change)
  | pf :: rest =>
      match dict_get q pf with
      | Some p =>
          (Some p,
           match matching_cf field_pairs pf with
           | Some cf => dict_get q cf
           | None => active_change
           end)
      | None => walk_fallback q rest active_price active_change
      end
  end.

(** Steps 1) and 2) of the loop body of [fetch_all_stocks]: the values that
    are then formatted into the "Price" and "Change" columns; [None] is what
    is rendered as "N/A". *)
Definition resolve (q : gmap string (option V))
    (price_key change_key : string) : option V * option V :=
  let active_price := dict_get q price_key in
  let active_change := dict_get q change_key in
  match active_price with
  | None =>
      walk_fallback q (fallback_order price_key) active_price active_change
  | Some _ => (active_price, active_change)
  end.

Definition resolve_in (q : gmap string (option V)) (s : session)
  : option V * option V :=
  resolve q (active_price_key s) (active_change_key s).

(** The "Last Close" column. *)
Definition prev_close (q : gmap string (option V)) : option V :=
  dict_get q "regularMarketPrice".

(** *** The resolver as the specification words it

    The fallback table by session, the percent field paired with each
    session's price field, and "first field present". *)
Definition table_order (s : session) : list session :=
  match s with
  | PreMarket => [Overnight; Regular; AfterHours]
  | Regular => [PreMarket; AfterHours; Overnight]
  | AfterHours => [Regular; PreMarket; Overnight]
  | Overnight => [AfterHours; Regular; PreMarket]
  end.

Fixpoint first_present (q : gmap string (option V)) (chain : list session)
  : option (session * V) :=
  match chain with
  | [] => None
  | f :: rest =>
      match dict_get q (active_price_key f) with
      | Some p => Some (f, p)
      | None => first_present q rest
      end
  end.

Definition absent (q : gmap string (option V)) (f : session) : Prop :=
  dict_get q (active_price_key f) = None.

Definition all_absent (q : gmap string (option V)) (s : session) : Prop :=
  absent q s /\ Forall (absent q) (table_order s).

Definition unavailable_both (r : option V * option V) : Prop :=
  fst r = None /\ snd r = None.

End Resolve.

End PriceResolver.

(** * Text normalisation

    A Python [str] is modelled as a [string] whose characters are the code
    points 0..255; [len], slicing and [strip] count characters. *)

Module Text.

(** [str.isspace] (and [\s] of the [re] module on [str] patterns) on the
    code points below 256: TAB..CR, FS..US, SPACE, NEL and NBSP. *)
Definition py_isspace (c : ascii) : bool :=
  let n := nat_of_ascii c in
  ((9 <=? n) && (n <=? 13) || (28 <=? n) && (n <=? 32)
   || (n =? 133) || (n =? 160))%nat.

Fixpoint lstrip (l : list ascii) : list ascii :=
  match l with
  | [] => []
  | c :: rest => if py_isspace c then lstrip rest else l
  end.

(** [s.strip()] *)
Definition strip_chars (l : list ascii) : list ascii :=
  rev (lstrip (rev (lstrip l))).

Definition strip (s : string) : string :=
  string_of_list_ascii (strip_chars (list_ascii_of_string s)).

(** [len(text.strip()) == 0] *)
Definition is_blank (s : string) : bool :=
  (String.length (strip s) =? 0)%nat.

(** A match of [[^>]+>] at the head of [l]: at least one character other
    than ['>'], up to and including the first ['>']; the result is what
    follows the match. *)
Fixpoint after_gt (l : list ascii) : option (list ascii) :=
  match l with
  | [] => None
  | c :: rest => if Ascii.eqb c ">" then Some rest else after_gt rest
  end.

Definition close_tag (l : list ascii) : option (list ascii) :=
  match l with
  | [] => None
  | c :: rest => if Ascii.eqb c ">" then None else after_gt rest
  end.

(** [re.sub(r'<[^>]+>', '', content)]: leftmost non-overlapping matches are
    deleted, scanning resumes after each match. *)
Fixpoint strip_tags_from (fuel : nat) (l : list ascii) : list ascii :=
  match fuel, l with
  | O, _ => l
  | _, [] => []
  | S fuel', c :: rest =>
      if Ascii.eqb c "<" then
        match close_tag rest with
        | Some rest' => strip_tags_from fuel' rest'
        | None => c :: strip_tags_from fuel' rest
        end
      else c :: strip_tags_from fuel' rest
  end.

Definition strip_tags (l : list ascii) : list ascii :=
  strip_tags_from (List.length l) l.

(** [re.sub(r'\s+', ' ', content)]: every maximal run of white space
    becomes one space; [in_run] says the previous character was white. *)
Fixpoint collapse_ws (in_run : bool) (l : list ascii) : list ascii :=
  match l with
  | [] => []
  | c :: rest =>
      if py_isspace c then
        if in_run then collapse_ws true rest
        else " "%char :: collapse_ws true rest
      else c :: collapse_ws false rest
  end.

Definition clean_news_content (content : string) : string :=
  string_of_list_ascii
    (strip_chars (collapse_ws false (strip_tags (list_ascii_of_string content)))).

(** [s[:n]] *)
Definition prefix_of (n : nat) (s : string) : string :=
  String.substring 0 n s.

(** [str(z)] for an [int], as an f-string renders it. *)
Definition str_of_int (z : Z) : string :=
  NilZero.string_of_int (Z.to_int z).

End Text.

(** * The built-in [hash] on [str]

    [get_news_key] calls the interpreter's [hash].  For a [str] CPython
    (3.11 and later, the default build) computes SipHash-1-3 over the
    string's bytes, keyed with a 16-byte secret that is drawn afresh when
    the process starts, or derived from the environment variable
    PYTHONHASHSEED when that is set.  The secret is the only input of [hash]
    that is not part of the string. *)

Module PyHash.

Definition wrap64 (x : Z) : Z := x mod 2 ^ 64.

Definition rotate (x b : Z) : Z :=
  Z.lor (wrap64 (Z.shiftl x b)) (Z.shiftr x (64 - b)).

Definition half_round (a b c d s t : Z) : Z * Z * Z * Z :=
  let a := wrap64 (a + b) in
  let c := wrap64 (c + d) in
  let b := Z.lxor (rotate b s) a in
  let d := Z.lxor (rotate d t) c in
  let a := rotate a 32 in
  (a, b, c, d).

Definition single_round (v : Z * Z * Z * Z) : Z * Z * Z * Z :=
  let '(v0, v1, v2, v3) := v in
  let '(v0, v1, v2, v3) := half_round v0 v1 v2 v3 13 16 in
  let '(v2, v1, v0, v3) := half_round v2 v1 v0 v3 17 21 in
  (v0, v1, v2, v3).

(** Little-endian value of a list of bytes. *)
Fixpoint le_bytes (l : list Z) : Z :=
  match l with
  | [] => 0
  | b :: rest => Z.lor b (Z.shiftl (le_bytes rest) 8)
  end.

Definition absorb (v : Z * Z * Z * Z) (mi : Z) : Z * Z * Z * Z :=
  let '(v0, v1, v2, v3) := v in
  let '(v0, v1, v2, v3) := single_round (v0, v1, v2, Z.lxor v3 mi) in
  (Z.lxor v0 mi, v1, v2, v3).

(** The [while (src_sz >= 8)] loop; returns the state and the at most seven
    bytes that are left. *)
Fixpoint blocks (v : Z * Z * Z * Z) (src : list Z)
  : (Z * Z * Z * Z) * list Z :=
  match src with
  | b0 :: b1 :: b2 :: b3 :: b4 :: b5 :: b6 :: b7 :: rest =>
      blocks (absorb v (le_bytes [b0; b1; b2; b3; b4; b5; b6; b7])) rest
  | _ => (v, src)
  end.

Definition siphash13 (k0 k1 : Z) (src : list Z) : Z :=
  let b := wrap64 (Z.shiftl (Z.of_nat (List.length src)) 56) in
  let v := (Z.lxor k0 0x736f6d6570736575, Z.lxor k1 0x646f72616e646f6d,
            Z.lxor k0 0x6c7967656e657261, Z.lxor k1 0x7465646279746573) in
  let '(v, tail) := blocks v src in
  let b := Z.lor b (le_bytes tail) in
  let '(v0, v1, v2, v3) := absorb v b in
  let v := single_round (single_round (single_round (v0, v1, Z.lxor v2 0xff, v3))) in
  let '(v0, v1, v2, v3) := v in
  Z.lxor (Z.lxor v0 v1) (Z.lxor v2 v3).

(** The cast to the signed [Py_hash_t]. *)
Definition to_signed64 (x : Z) : Z :=
  if x <? 2 ^ 63 then x else x - 2 ^ 64.

(** The two 64-bit words k0, k1 of the process's hash secret. *)
Definition secret : Type := Z * Z.

Definition bytes_of (s : string) : list Z :=
  map (fun c => Z.of_nat (nat_of_ascii c)) (list_ascii_of_string s).

(** [hash(s)]: the empty string hashes to 0, and -1 is never returned. *)
Definition hash (k : secret) (s : string) : Z :=
  match bytes_of s with
  | [] => 0
  | src =>
      let x := to_signed64 (siphash13 (fst k) (snd k) src) in
      if x =? -1 then -2 else x
  end.

(** The secret CPython derives from PYTHONHASHSEED=[seed], [seed] > 0: a
    linear congruential generator on 32-bit words yields one byte a step;
    the first sixteen bytes are k0 and k1. *)
Fixpoint lcg_urandom (n : nat) (x : Z) : list Z :=
  match n with
  | O => []
  | S n' =>
      let x := (x * 214013 + 2531011) mod 2 ^ 32 in
      Z.land (Z.shiftr x 16) 255 :: lcg_urandom n' x
  end.

Definition secret_of_seed (seed : Z) : secret :=
  let buf := lcg_urandom 16 seed in
  (le_bytes (firstn 8 buf), le_bytes (skipn 8 buf)).

End PyHash.

(** * News items, cache keys and the translation cache *)

Module News.

(** A raw item of the feed, after the defaults of [item.get('time', '')],
    [item.get('important', 0)] and [item.get('data', {}).get('content', '')]
    have been applied. *)
Record news_item := {
  item_time : string;
  item_important : Z;
  item_content : string
}.

(** The backing store [news_translation_cache.pkl]. *)
Inductive file :=
| Missing
| Stored (m : gmap string string)
| Corrupt.

(** What [translator.translate(text, ...).text] does: it yields a text or
    raises an exception [e]. *)
Inductive reply :=
| Translated (text : string)
| Failed (e : string).

(** Everything outside the interpreter that the news functions touch: the
    cache file, and the texts sent to the translation backend so far. *)
Record world := {
  disk : file;
  calls : list string
}.

Inductive glyph := Fire | Paper.

Record news_entry := {
  entry_time : string;
  entry_importance : glyph;
  entry_content : string
}.

Inductive write_outcome := Written | OpenFailed | DumpFailed.

Definition load_translation_cache (w : world) : gmap string string :=
  match disk w with
  | Stored m => m
  | Missing | Corrupt => ∅
  end.

(** [open(..., 'wb')] truncates the file; an exception of [open] leaves it
    as it was, an exception of [pickle.dump] leaves a partial file; both are
    caught and reported. *)
Definition save_translation_cache (o : write_outcome)
    (cache : gmap string string) (w : world) : world :=
  match o with
  | Written => {| disk := Stored cache; calls := calls w |}
  | OpenFailed => w
  | DumpFailed => {| disk := Corrupt; calls := calls w |}
  end.

Definition error_msg (e : string) : string := "翻译失败: " ++ e.

(** What the backend's answer to a call becomes: its text, or the error
    text that is stored in its place. *)
Definition answer_text (r : reply) : string :=
  match r with
  | Translated t => t
  | Failed e => error_msg e
  end.

Section Fetch.

(** [hash] of the running process. *)
Variable hash : string -> Z.

(** The translation backend: its answer to the [n]-th call of the process,
    which may depend on the text and on [n]. *)
Variable backend : nat -> string -> reply.

(** [format_news_time(time_str)[0]] *)
Variable format_news_time : string -> string.

Definition get_news_key (item : news_item) : string :=
  let content_preview :=
    Text.prefix_of 50 (Text.clean_news_content (item_content item)) in
  item_time item ++ "_" ++ Text.str_of_int (hash content_preview).

(** [translate_news_text_cached(text, translator, cache, news_key)]: the
    result, the dictionary [cache] after the call (it is mutated in place)
    and the world after the call. *)
Definition translate_news_text_cached (text : string)
    (cache : gmap string string) (news_key : string) (w : world)
  : string * gmap string string * world :=
  match cache !! news_key with
  | Some stored => (stored, cache, w)
  | None =>
      if Text.is_blank text then (text, cache, w)
      else
        let w' := {| disk := disk w; calls := calls w ++ [text] |} in
        match backend (List.length (calls w)) text with
        | Translated translated =>
            (translated, <[news_key := translated]> cache, w')
        | Failed e =>
            (error_msg e, <[news_key := error_msg e]> cache, w')
        end
  end.

(** [sorted(data, key=lambda x: x.get('time', ''), reverse=True)]: a stable
    sort, latest first. *)
Fixpoint insert_desc (x : news_item) (l : list news_item) : list news_item :=
  match l with
  | [] => [x]
  | y :: rest =>
      if String.ltb (item_time x) (item_time y) then y :: insert_desc x rest
      else x :: l
  end.

Definition sorted_desc (data : list news_item) : list news_item :=
  foldr insert_desc [] data.

(** [s[:n] + "..."] when [len(s) > n]. *)
Definition ellipsize (n : nat) (s : string) : string :=
  if (n <? String.length s)%nat then Text.prefix_of n s ++ "..." else s.

(** The body of the [for item in sorted_news] loop. *)
Definition process_item (item : news_item)
    (cache : gmap string string) (w : world)
  : news_entry * gmap string string * world :=
  let news_key := get_news_key item in
  let clean_content_text := Text.clean_news_content (item_content item) in
  let importance_mark :=
    if item_important item =? 1 then Fire else Paper in
  let '(translated_content, cache', w') :=
    if (String.length clean_content_text =? 0)%nat then ("无内容", cache, w)
    else
      let '(t, c, w1) :=
        translate_news_text_cached (ellipsize 200 clean_content_text)
          cache news_key w in
      (ellipsize 100 t, c, w1) in
  ({| entry_time := format_news_time (item_time item);
      entry_importance := importance_mark;
      entry_content := translated_content |}, cache', w').

Fixpoint process_items (items : list news_item)
    (cache : gmap string string) (w : world)
  : list news_entry * gmap string string * world :=
  match items with
  | [] => ([], cache, w)
  | item :: rest =>
      let '(e, cache1, w1) := process_item item cache w in
      let '(es, cache2, w2) := process_items rest cache1 w1 in
      (e :: es, cache2, w2)
  end.

(** [fetch_latest_news(count)]; [data] is what [fetch_news_data] returned
    ([None] after a transport or JSON error, which it catches itself), [o]
    is the fate of the write of the cache file. *)
Definition fetch_latest_news (count : nat) (data : option (list news_item))
    (o : write_outcome) (w : world) : list news_entry * world :=
  match data with
  | None | Some [] => ([], w)
  | Some items =>
      let cache := load_translation_cache w in
      let sorted_news := firstn count (sorted_desc items) in
      let '(news_list, cache', w') := process_items sorted_news cache w in
      (news_list, save_translation_cache o cache' w')
  end.

(** *** The cache as the specification words it *)

(** "[getOrCompute(k, f)] invoked twice with identical [k] invokes [f] at
    most once; the first call on a miss stores the result under [k]; the
    second call returns the identical stored text" without a call. *)
Definition twice_at_most_once (text : string) (cache : gmap string string)
    (news_key : string) (w : world) : Prop :=
  let '(r1, c1, w1) := translate_news_text_cached text cache news_key w in
  let '(r2, c2, w2) := translate_news_text_cached text c1 news_key w1 in
  (List.length (calls w2) <= S (List.length (calls w)))%nat
  /\ (cache !! news_key = None -> c1 !! news_key = Some r1)
  /\ c2 !! news_key = Some r2 /\ r2 = r1
  /\ calls w2 = calls w1.


End Fetch.

End News.

(** * Results of calls that may raise *)

Inductive outcome (A : Type) :=
| Ok (a : A)
| Raise (e : string).
Arguments Ok {A} a.
Arguments Raise {A} e.

(** * The crypto quote source *)

Module Gate.

(** What one [requests.get] to the exchange does: it raises (time-out,
    connection error), or yields a response with a status code and a body;
    the body is [None] when [r.json()] raises, otherwise the decoded list of
    objects, each a dictionary of strings. *)
Inductive ticker_reply :=
| RequestRaises (e : string)
| Response (status : Z) (body : option (list (gmap string string))).

(** [symbol.replace("_", "")] *)
Fixpoint remove_underscores (s : string) : string :=
  match s with
  | EmptyString => EmptyString
  | String c rest =>
      if Ascii.eqb c "_" then remove_underscores rest
      else String c (remove_underscores rest)
  end.

Definition symbols : list string := ["BTC_USDT"; "ETH_USDT"; "BNB_USDT"].

Section Fetch.

(** A price (a Python float) and [float(text)], which raises on text that
    is not a number. *)
Context {P : Type}.
Variable parse_float : string -> option P.

(** Lines 61 to 65 for one symbol: the price, or the exception raised by
    [requests.get], [raise_for_status], [r.json()], [[0]], [data["last"]]
    or [float]. *)
Definition quote_of (r : ticker_reply) : outcome P :=
  match r with
  | RequestRaises e => Raise e
  | Response status body =>
      if (400 <=? status) && (status <? 600) then Raise "HTTPError"
      else
        match body with
        | None => Raise "JSONDecodeError"
        | Some [] => Raise "IndexError"
        | Some (data :: _) =>
            match data !! "last" with
            | None => Raise "KeyError"
            | Some last =>
                match parse_float last with
                | None => Raise "ValueError"
                | Some p => Ok p
                end
            end
        end
  end.

(** The [for] loop inside the [try]: the first exception leaves the loop.
    The result is the dictionary [prices], the symbols requested so far, in
    order, and the exception that ended the loop, if any. *)
Fixpoint request_all (gate : string -> ticker_reply) (todo : list string)
    (prices : gmap string P) (requested : list string)
  : gmap string P * list string * option string :=
  match todo with
  | [] => (prices, requested, None)
  | symbol :: rest =>
      match quote_of (gate symbol) with
      | Ok p =>
          request_all gate rest
            (<[remove_underscores symbol := p]> prices)
            (requested ++ [symbol])%list
      | Raise e => (prices, (requested ++ [symbol])%list, Some e)
      end
  end.

Definition fetch_prices_from_gate (gate : string -> ticker_reply)
  : gmap string P * list string * option string :=
  request_all gate symbols ∅ [].

Definition prices_of (gate : string -> ticker_reply) : gmap string P :=
  fst (fst (fetch_prices_from_gate gate)).

Definition requests_of (gate : string -> ticker_reply) : list string :=
  snd (fst (fetch_prices_from_gate gate)).

(** "Its own request succeeds": the reply the exchange gives for [symbol]
    is one from which lines 62 to 65 obtain a price. *)
Definition succeeds (gate : string -> ticker_reply) (symbol : string) : Prop :=
  exists p, quote_of (gate symbol) = Ok p.

Definition is_ok (o : outcome P) : bool :=
  match o with Ok _ => true | Raise _ => false end.

Definition price_of (o : outcome P) : option P :=
  match o with Ok p => Some p | Raise _ => None end.

(** *** The source as the specification words it

    "A failed symbol is simply omitted, other symbols unaffected": every
    symbol whose own request succeeds has its price in the result. *)
Definition failures_isolated (gate : string -> ticker_reply) : Prop :=
  forall symbol, In symbol symbols -> succeeds gate symbol ->
    is_Some (prices_of gate !! remove_underscores symbol).

End Fetch.

End Gate.

(** * The equities table *)

Module Stocks.

Section Fetch.

Context {V : Type}.

(** A row of the data frame; the three numeric columns are kept unformatted,
    [None] is what is formatted as "N/A". *)
Record row := {
  last_close : option V;
  ticker : string;
  priority : Z;
  price : option V;
  change : option V
}.

(** What [Ticker(tickers, ...).quotes] does: it raises, or yields something
    that is not a dictionary, or a dictionary from ticker to a value that is
    a quote dictionary ([Some]) or something else ([None]). *)
Inductive quotes_reply :=
| QuotesRaise (e : string)
| QuotesNotDict
| QuotesDict (m : gmap string (option (gmap string (option V)))).

(** [quotes_all.get(t, {}) if isinstance(quotes_all, dict) else {}], then
    [{}] unless it is a dictionary. *)
Definition quote_for (m : option (gmap string (option (gmap string (option V)))))
    (t : string) : gmap string (option V) :=
  match m with
  | None => ∅
  | Some m =>
      match m !! t with
      | Some (Some q) => q
      | Some None | None => ∅
      end
  end.

Definition make_row (marks : gmap string string)
    (q : gmap string (option V)) (price_key change_key t : string) : row :=
  let '(active_price, active_change) :=
    PriceResolver.resolve q price_key change_key in
  let prefix := default "" (marks !! t) in
  {| last_close := PriceResolver.prev_close q;
     ticker := if (String.length prefix =? 0)%nat then "  " ++ t else prefix ++ t;
     priority := if (String.length prefix =? 0)%nat then 0 else 1;
     price := active_price;
     change := active_change |}.

(** [fetch_all_stocks]; [tickers] and [marks] are what [read_stocks] read
    from the ticker file. *)
Definition fetch_all_stocks (tickers : list string)
    (marks : gmap string string) (quotes : quotes_reply)
    (price_key change_key : string) : outcome (list row) :=
  match tickers with
  | [] => Ok []
  | _ =>
      match quotes with
      | QuotesRaise e => Raise e
      | QuotesNotDict =>
          Ok (map (fun t => make_row marks (quote_for None t)
                              price_key change_key t) tickers)
      | QuotesDict m =>
          Ok (map (fun t => make_row marks (quote_for (Some m) t)
                              price_key change_key t) tickers)
      end
  end.

End Fetch.

Arguments row V : clear implicits.
Arguments quotes_reply V : clear implicits.

End Stocks.

(** * The main loop *)

Module Monitor.

Inductive data_class := Crypto | Equities | NewsFeed.

Section Loop.

Context {P V : Type}.
Variable parse_float : string -> option P.
Variable hash : string -> Z.
Variable backend : nat -> string -> News.reply.
Variable format_news_time : string -> string.

(** The three global flags, the local variables of [main] that survive an
    iteration of the loop, and the world of the news functions.  Clock
    readings ([time.time()]) are whole seconds. *)
Record loop_state := {
  stop_flag : bool;
  manual_refresh_flag : bool;
  show_more_news : bool;
  last_stock_update : Z;
  last_news_update : Z;
  stock_df : list (Stocks.row V);
  news_list : list News.news_entry;
  outside : News.world
}.

Definition initial (w : News.world) : loop_state :=
  {| stop_flag := false; manual_refresh_flag := false;
     show_more_news := false;
     last_stock_update := 0; last_news_update := 0;
     stock_df := []; news_list := []; outside := w |}.

Definition set_flags (stop manual more : bool) (st : loop_state) : loop_state :=
  {| stop_flag := stop; manual_refresh_flag := manual;
     show_more_news := more;
     last_stock_update := last_stock_update st;
     last_news_update := last_news_update st;
     stock_df := stock_df st; news_list := news_list st;
     outside := outside st |}.

(** [sys.stdin.read(1).lower() == k] for a lower-case ASCII letter [k]. *)
Definition is_key (k key : ascii) : bool :=
  Ascii.eqb key k
  || (nat_of_ascii key + 32 =? nat_of_ascii k)%nat.

(** One round of the [while True] loop of [key_listener].  After 'q' the
    listener has left its loop and reads no further key. *)
Definition key_listener_step (st : loop_state) (key : ascii) : loop_state :=
  if stop_flag st then st
  else if is_key "q" key then
    set_flags true (manual_refresh_flag st) (show_more_news st) st
  else if is_key "w" key then
    set_flags (stop_flag st) true true st
  else st.

Definition key_listener (keys : list ascii) (st : loop_state) : loop_state :=
  fold_left key_listener_step keys st.

(** What one iteration of the loop reads from outside: the clock, the
    replies of the three sources, and the keys the listener thread reads
    meanwhile.  The keys are grouped by the points at which the loop reads
    a flag: before it reads [manual_refresh_flag] (line 373), between that
    and its reading of [show_more_news] (line 385), between that and the
    idle wait, and during each [time.sleep(1)] of the idle wait. *)
Record tick_env := {
  now : Z;
  gate : string -> Gate.ticker_reply;
  keys_crypto : list ascii;
  clock_hour : Z;
  clock_minute : Z;
  tickers : list string;
  marks : gmap string string;
  quotes : Stocks.quotes_reply V;
  keys_stocks : list ascii;
  feed : option (list News.news_item);
  write : News.write_outcome;
  keys_news : list ascii;
  keys_sleep : nat -> list ascii
}.

(** What is handed to the rendering code of one iteration.  [None] for a
    crypto symbol is the line "获取失败"; an empty [stock_rows] is the line
    "未找到美股列表"; an empty [news_lines] is the line "新闻获取失败". *)
Record screen := {
  refreshed_notice : bool;
  crypto_lines : list (string * option P);
  stock_rows : list (Stocks.row V);
  news_lines : list News.news_entry
}.

Definition is_nil {A : Type} (l : list A) : bool :=
  match l with [] => true | _ => false end.

(** Line 378 *)
Definition stock_due (t : Z) (st : loop_state) (force_refresh : bool) : bool :=
  (300 <? t - last_stock_update st) || is_nil (stock_df st) || force_refresh.

(** Line 383 *)
Definition news_due (t : Z) (st : loop_state) (force_refresh : bool) : bool :=
  (300 <? t - last_news_update st) || is_nil (news_list st) || force_refresh.

(** Line 385 *)
Definition news_count (st : loop_state) : nat :=
  if show_more_news st then 10%nat else 5%nat.

(** Lines 515 to 521, from iteration [i] on, [fuel] iterations left. *)
Fixpoint idle_wait (fuel i : nat) (keys : nat -> list ascii)
    (st : loop_state) : loop_state :=
  match fuel with
  | O => st
  | S fuel' =>
      if stop_flag st then st
      else
        let st1 :=
          if (i =? 30)%nat && show_more_news st
             && negb (manual_refresh_flag st)
          then set_flags (stop_flag st) (manual_refresh_flag st) false st
          else st in
        idle_wait fuel' (S i) keys (key_listener (keys i) st1)
  end.

Definition with_stocks (df : list (Stocks.row V)) (t : Z) (st : loop_state)
  : loop_state :=
  {| stop_flag := stop_flag st;
     manual_refresh_flag := manual_refresh_flag st;
     show_more_news := show_more_news st;
     last_stock_update := t;
     last_news_update := last_news_update st;
     stock_df := df; news_list := news_list st; outside := outside st |}.

Definition with_news (nl : list News.news_entry) (t : Z) (w : News.world)
    (st : loop_state) : loop_state :=
  {| stop_flag := stop_flag st;
     manual_refresh_flag := manual_refresh_flag st;
     show_more_news := show_more_news st;
     last_stock_update := last_stock_update st;
     last_news_update := t;
     stock_df := stock_df st; news_list := nl; outside := w |}.

(** Lines 373 to 375 *)
Definition consume_manual (st : loop_state) : bool * loop_state :=
  (manual_refresh_flag st,
   if manual_refresh_flag st
   then set_flags (stop_flag st) false (show_more_news st) st
   else st).

(** Lines 378 to 380; the exception of [fetch_all_stocks] is not caught. *)
Definition refresh_stocks (e : tick_env) (force_refresh : bool)
    (st : loop_state) : outcome (bool * loop_state) :=
  if stock_due (now e) st force_refresh then
    let '(_, price_key, change_key) :=
      PriceResolver.detect_session (clock_hour e) (clock_minute e) in
    match Stocks.fetch_all_stocks (tickers e) (marks e) (quotes e)
            price_key change_key with
    | Raise x => Raise x
    | Ok df => Ok (true, with_stocks df (now e) st)
    end
  else Ok (false, st).

(** Lines 383 to 387 *)
Definition refresh_news (e : tick_env) (force_refresh : bool)
    (st : loop_state) : bool * loop_state :=
  if news_due (now e) st force_refresh then
    let '(nl, w) :=
      News.fetch_latest_news hash backend format_news_time
        (news_count st) (feed e) (write e) (outside st) in
    (true, with_news nl (now e) w st)
  else (false, st).

Definition crypto_symbols : list string := ["BTCUSDT"; "ETHUSDT"; "BNBUSDT"].

Definition display (force_refresh : bool) (prices : gmap string P)
    (st : loop_state) : screen :=
  {| refreshed_notice := force_refresh;
     crypto_lines := map (fun sym => (sym, prices !! sym)) crypto_symbols;
     stock_rows := stock_df st;
     news_lines := news_list st |}.

Definition classes (stocks news : bool) : list data_class :=
  (Crypto :: (if stocks then [Equities] else []))
    ++ (if news then [NewsFeed] else []).

(** One iteration of [while not stop_flag], lines 368 to 521: the classes
    whose fetch function was called, and either the exception that leaves
    [main] or the screen shown and the state at the end of the iteration. *)
Definition tick (e : tick_env) (st : loop_state)
  : list data_class * outcome (screen * loop_state) :=
  let prices := Gate.prices_of parse_float (gate e) in
  let st1 := key_listener (keys_crypto e) st in
  let '(force_refresh, st2) := consume_manual st1 in
  match refresh_stocks e force_refresh st2 with
  | Raise x => (classes true false, Raise x)
  | Ok (stocks, st3) =>
      let st4 := key_listener (keys_stocks e) st3 in
      let '(news, st5) := refresh_news e force_refresh st4 in
      let st6 := key_listener (keys_news e) st5 in
      (classes stocks news,
       Ok (display force_refresh prices st6,
           idle_wait 60 0 (keys_sleep e) st6))
  end.

(** [main]'s loop over the inputs of successive iterations: the screens
    shown, and the exception that ended the process or the state in which
    the loop was left or the inputs ran out. *)
Fixpoint main_loop (envs : list tick_env) (st : loop_state)
  : list screen * outcome loop_state :=
  match envs with
  | [] => ([], Ok st)
  | e :: rest =>
      if stop_flag st then ([], Ok st)
      else
        match snd (tick e st) with
        | Raise x => ([], Raise x)
        | Ok (scr, st') =>
            let '(scrs, r) := main_loop rest st' in (scr :: scrs, r)
        end
  end.

(** [main]: the locals are initialised and the loop is entered. *)
Definition main (envs : list tick_env) (w : News.world)
  : list screen * outcome loop_state :=
  main_loop envs (initial w).

(** *** The scheduler as the specification words it *)

(** "A class is due iff [now - lastUpdate >= cadence] or the class has
    never been fetched or [manualRefreshPending] is true." *)
Definition spec_due (cadence t last_update : Z)
    (never_fetched manual_pending : bool) : bool :=
  (cadence <=? t - last_update) || never_fetched || manual_pending.

Definition spec_cadence (c : data_class) : Z :=
  match c with
  | Crypto => 60
  | Equities => 300
  | NewsFeed => 300
  end.



(** Key presses among which there is no manual refresh, and among which
    there is neither a manual refresh nor a quit. *)
Definition no_manual (keys : list ascii) : bool :=
  forallb (fun key => negb (is_key "w" key)) keys.

Definition quiet (keys : list ascii) : bool :=
  forallb (fun key => negb (is_key "q" key) && negb (is_key "w" key)) keys.


(** The part of the state that key presses and the idle wait leave alone. *)
Definition same_data (a b : loop_state) : Prop :=
  last_stock_update a = last_stock_update b
  /\ last_news_update a = last_news_update b
  /\ stock_df a = stock_df b
  /\ news_list a = news_list b
  /\ outside a = outside b.

End Loop.

Arguments loop_state V : clear implicits.
Arguments tick_env V : clear implicits.
Arguments screen P V : clear implicits.

End Monitor.

(** * Concrete inputs used in the examples below *)

Module Examples.

(** A quote record that carries a pre-market percent change and no price
    at all. *)
Definition percent_only : gmap string (option Q) :=
  {[ "preMarketChangePercent" := Some (3 # 2)%Q ]}.

(** A quote record with only the overnight price and percent populated. *)
Definition overnight_only : gmap string (option Q) :=
  <[ "overnightMarketPrice" := Some (101 # 1)%Q ]>
    {[ "overnightMarketChangePercent" := Some (1 # 4)%Q ]}.

(** A translation backend that answers every call. *)
Definition echo_backend (n : nat) (text : string) : News.reply :=
  News.Translated ("zh:" ++ text).

(** A backend whose first call raises. *)
Definition flaky_backend (n : nat) (text : string) : News.reply :=
  match n with
  | O => News.Failed "timed out"
  | S _ => News.Translated ("zh:" ++ text)
  end.

(** A first run: no cache file, no call made yet. *)
Definition fresh_world : News.world :=
  {| News.disk := News.Missing; News.calls := [] |}.

(** Two feed items. *)
Definition item_fed : News.news_item :=
  {| News.item_time := "2024-05-01T10:00:00Z";
     News.item_important := 1;
     News.item_content := "<p>Fed holds  rates steady</p>" |}.

Definition item_oil : News.news_item :=
  {| News.item_time := "2024-05-01T10:05:00Z";
     News.item_important := 0;
     News.item_content := "Oil slips 2%" |}.

(** [hash] in a process started with PYTHONHASHSEED=1, and in one started
    with PYTHONHASHSEED=2. *)
Definition hash_run1 : string -> Z := PyHash.hash (PyHash.secret_of_seed 1).
Definition hash_run2 : string -> Z := PyHash.hash (PyHash.secret_of_seed 2).

Definition show_time (time_str : string) : string := time_str.

(** [float] on the decimal texts used in the examples. *)
Definition parse_price (text : string) : option Q :=
  if String.eqb text "64000.5" then Some (128001 # 2)%Q
  else if String.eqb text "3100" then Some (3100 # 1)%Q
  else if String.eqb text "590" then Some (590 # 1)%Q
  else None.

(** The exchange times out on BTC_USDT and answers the other two symbols. *)
Definition gate_btc_down (symbol : string) : Gate.ticker_reply :=
  if String.eqb symbol "BTC_USDT" then Gate.RequestRaises "Read timed out"
  else if String.eqb symbol "ETH_USDT" then
    Gate.Response 200 (Some [ {[ "last" := "3100" ]} ])
  else Gate.Response 200 (Some [ {[ "last" := "590" ]} ]).

(** The exchange answers BTC_USDT and returns status 502 for ETH_USDT. *)
Definition gate_eth_down (symbol : string) : Gate.ticker_reply :=
  if String.eqb symbol "BTC_USDT" then
    Gate.Response 200 (Some [ {[ "last" := "64000.5" ]} ])
  else if String.eqb symbol "ETH_USDT" then Gate.Response 502 None
  else Gate.Response 200 (Some [ {[ "last" := "590" ]} ]).

Definition headline (n : string) : News.news_item :=
  {| News.item_time := "2024-05-01T10:0" ++ n ++ ":00Z";
     News.item_important := 0;
     News.item_content := "Headline " ++ n |}.

Definition six_items : list News.news_item :=
  map headline ["1"; "2"; "3"; "4"; "5"; "6"].

Definition aapl_quote : gmap string (option Q) :=
  <[ "regularMarketPrice" := Some (150 # 1)%Q ]>
    {[ "regularMarketChangePercent" := Some (3 # 2)%Q ]}.

Definition aapl_row : Stocks.row Q :=
  {| Stocks.last_close := Some (150 # 1)%Q;
     Stocks.ticker := "  AAPL";
     Stocks.priority := 0;
     Stocks.price := Some (150 # 1)%Q;
     Stocks.change := Some (3 # 2)%Q |}.

Definition fed_entry : News.news_entry :=
  {| News.entry_time := "2024-05-01T10:00:00Z";
     News.entry_importance := News.Fire;
     News.entry_content := "zh:Fed holds rates steady" |}.

Definition no_keys (i : nat) : list ascii := [].

(** An iteration at clock reading [t], 10:00 New York time, during which
    no key is pressed; the exchange fails on ETH_USDT. *)
Definition calm_env (t : Z) (quotes : Stocks.quotes_reply Q)
    (feed : option (list News.news_item)) : Monitor.tick_env Q :=
  {| Monitor.now := t;
     Monitor.gate := gate_eth_down;
     Monitor.keys_crypto := [];
     Monitor.clock_hour := 10;
     Monitor.clock_minute := 0;
     Monitor.tickers := ["AAPL"];
     Monitor.marks := ∅;
     Monitor.quotes := quotes;
     Monitor.keys_stocks := [];
     Monitor.feed := feed;
     Monitor.write := News.Written;
     Monitor.keys_news := [];
     Monitor.keys_sleep := no_keys |}.

Definition aapl_quotes : Stocks.quotes_reply Q :=
  Stocks.QuotesDict {[ "AAPL" := Some aapl_quote ]}.

(** The state after both classes were fetched at clock reading 1000. *)
Definition shown_state : Monitor.loop_state Q :=
  {| Monitor.stop_flag := false;
     Monitor.manual_refresh_flag := false;
     Monitor.show_more_news := false;
     Monitor.last_stock_update := 1000;
     Monitor.last_news_update := 1000;
     Monitor.stock_df := [aapl_row];
     Monitor.news_list := [fed_entry];
     Monitor.outside := fresh_world |}.

(** The same state after the key 'w'. *)
Definition pending_state : Monitor.loop_state Q :=
  Monitor.key_listener_step shown_state "w".

Definition run_tick (e : Monitor.tick_env Q) (st : Monitor.loop_state Q)
  : list Monitor.data_class
    * outcome (Monitor.screen Q Q * Monitor.loop_state Q) :=
  Monitor.tick parse_price hash_run1 echo_backend show_time e st.

Definition blank_screen : Monitor.screen Q Q :=
  {| Monitor.refreshed_notice := false; Monitor.crypto_lines := [];
     Monitor.stock_rows := []; Monitor.news_lines := [] |}.

Definition ok_or {A : Type} (d : A) (o : outcome A) : A :=
  match o with Ok a => a | Raise _ => d end.



End Examples.

(** * Shapes of cleaned text *)

Module TextShape.
Import Text.

(** Every white-space character is a single space that does not follow
    white space; [after_ws] says the previous character was white. *)
Fixpoint spaced (after_ws : bool) (l : list ascii) : bool :=
  match l with
  | [] => true
  | c :: rest =>
      if py_isspace c
      then negb after_ws && Ascii.eqb c " " && spaced true rest
      else spaced false rest
  end.

(** No ['<'] is the start of a match of [<[^>]+>]. *)
Fixpoint tagless (l : list ascii) : bool :=
  match l with
  | [] => true
  | c :: rest =>
      (if Ascii.eqb c "<"
       then match close_tag rest with None => true | Some _ => false end
       else true)
      && tagless rest
  end.

(** The first character, if any, is not white space. *)
Definition starts_clean (l : list ascii) : bool :=
  match l with
  | [] => true
  | c :: _ => negb (py_isspace c)
  end.

End TextShape.

(** * Shapes of news texts and feeds *)

Module NewsShape.


(** [a] is not earlier than [b], by the order of Python on the time
    strings. *)
Definition not_before (a b : News.news_item) : Prop :=
  String.ltb (News.item_time a) (News.item_time b) = false.

End NewsShape.

(** * The ticker file *)

Module Ticker.

(** [line.strip().split()]: the maximal runs of characters other than white
    space; [cur] holds the run being read, last character first. *)
Fixpoint split_from (cur : list ascii) (l : list ascii) : list string :=
  match l with
  | [] =>
      match cur with
      | [] => []
      | _ => [string_of_list_ascii (rev cur)]
      end
  | c :: rest =>
      if Text.py_isspace c then
        match cur with
        | [] => split_from [] rest
        | _ => string_of_list_ascii (rev cur) :: split_from [] rest
        end
      else split_from (c :: cur) rest
  end.

Definition split (line : string) : list string :=
  split_from [] (list_ascii_of_string line).

(** Lines 112 to 117 *)
Definition mark_of (parts : list string) : string :=
  match parts with
  | _ :: second :: _ =>
      if String.eqb second "1" then "🚀"
      else if String.eqb second "2" then "⚡"
      else ""
  | _ => ""
  end.

Section Read.

(** [str.upper] *)
Variable upper : string -> string.

(** The body of [for line in f], on the pair [(tickers, marks)]. *)
Definition read_line (acc : list string * gmap string string)
    (line : string) : list string * gmap string string :=
  match split line with
  | [] => acc
  | first :: _ =>
      let t := upper first in
      let mark := mark_of (split line) in
      ((fst acc ++ [t])%list,
       if (String.length mark =? 0)%nat then snd acc
       else <[t := mark]> (snd acc))
  end.

(** [read_stocks(file_path)]; [file] is [None] when opening the file raises
    [FileNotFoundError], otherwise the lines of the file. *)
Definition read_stocks (file : option (list string))
  : list string * gmap string string :=
  match file with
  | None => ([], ∅)
  | Some lines => fold_left read_line lines ([], ∅)
  end.

(** The ticker named by a line and the mark the line gives it, if the line
    is not blank. *)
Definition line_entry (line : string) : option (string * string) :=
  match split line with
  | [] => None
  | first :: _ => Some (upper first, mark_of (split line))
  end.

(** The tickers of the non-blank lines, in order. *)
Definition line_tickers (lines : list string) : list string :=
  omap (fun line => fst <$> line_entry line) lines.

(** The last non-empty mark that a list of lines gives to ticker [t]. *)
Fixpoint last_mark (t : string) (lines : list string) (found : option string)
  : option string :=
  match lines with
  | [] => found
  | line :: rest =>
      match line_entry line with
      | Some (t', mark) =>
          if String.eqb t' t && negb (String.length mark =? 0)%nat
          then last_mark t rest (Some mark)
          else last_mark t rest found
      | None => last_mark t rest found
      end
  end.

End Read.

End Ticker.

(** * Shapes of key input *)

Module MonitorShape.

Import Monitor.

(** One of the keys is [k], in either case of the letter. *)
Definition has_key (k : ascii) (keys : list ascii) : bool :=
  existsb (is_key k) keys.

(** The same iteration with no key pressed. *)
Definition without_keys {V : Type} (e : tick_env V) : tick_env V :=
  {| now := now e; gate := gate e; keys_crypto := [];
     clock_hour := clock_hour e; clock_minute := clock_minute e;
     tickers := tickers e; marks := marks e; quotes := quotes e;
     keys_stocks := []; feed := feed e; write := write e;
     keys_news := []; keys_sleep := fun _ => [] |}.

End MonitorShape.

(** * The two-column layout of the equities table *)

Module Layout.

(** [" " * n] *)
Fixpoint spaces (n : nat) : string :=
  match n with
  | O => EmptyString
  | S n' => String " " (spaces n')
  end.

Section Columns.

(** A row of the sorted data frame, and the f-string of lines 472 and 480
    that formats it. *)
Context {A : Type}.
Variable fmt : A -> string.

(** Line 459 *)
Definition mid_point (total_stocks : nat) : nat := ((total_stocks + 1) / 2)%nat.

(** One cell of a column: the formatted row [i] of the column, or the
    filler when the column has no row [i]. *)
Definition cell (filler : string) (column : list A) (i : nat) : string :=
  match nth_error column i with
  | Some r => fmt r
  | None => filler
  end.

(** Lines 458 to 483: [left_strings] and [right_strings]. *)
Definition column_strings (rows : list A) : list string * list string :=
  let mid := mid_point (List.length rows) in
  let left_df := firstn mid rows in
  let right_df := skipn mid rows in
  let n := Nat.max (List.length left_df) (List.length right_df) in
  (map (cell (spaces 34) left_df) (seq 0 n),
   map (cell "" right_df) (seq 0 n)).

End Columns.

End Layout.

(** * Shapes of ticker lines *)

Module TickerShape.

(** Whether a line names ticker [t] with a second column 1 or 2. *)
Definition gives_mark (upper : string -> string) (t line : string) : bool :=
  match Ticker.line_entry upper line with
  | Some (t', mark) =>
      String.eqb t' t && negb (String.length mark =? 0)%nat
  | None => false
  end.

End TickerShape.

(** * Further concrete inputs *)

Module MoreExamples.

(** [str.upper] on texts of ASCII letters, digits and punctuation. *)
Definition upper_char (c : ascii) : ascii :=
  let n := nat_of_ascii c in
  if ((97 <=? n) && (n <=? 122))%nat then ascii_of_nat (n - 32) else c.

Fixpoint upper_ascii (s : string) : string :=
  match s with
  | EmptyString => EmptyString
  | String c rest => String (upper_char c) (upper_ascii rest)
  end.

(** A ticker file that names AAPL twice and ends with a blank line. *)
Definition ticker_lines : list string :=
  ["aapl 1"; "msft"; "  nvda   2  x"; "aapl"; "   "].

(** Two items of the same minute whose texts differ only after the
    fiftieth character. *)
Definition item_rates_may : News.news_item :=
  {| News.item_time := "2024-05-01T10:00:00Z";
     News.item_important := 0;
     News.item_content :=
       "Central bank leaves its policy rate unchanged at 5.25% in May" |}.

Definition item_rates_june : News.news_item :=
  {| News.item_time := "2024-05-01T10:00:00Z";
     News.item_important := 0;
     News.item_content :=
       "Central bank leaves its policy rate unchanged at 5.25% in June" |}.

(** The table for AAPL and GOOG at 10:00 New York time when the quote
    source knows AAPL only. *)
Definition two_tickers : list string := ["AAPL"; "GOOG"].

Definition aapl_only : gmap string (option (gmap string (option Q))) :=
  {[ "AAPL" := Some Examples.aapl_quote ]}.

Definition two_rows : list (Stocks.row Q) :=
  Examples.ok_or []
    (Stocks.fetch_all_stocks two_tickers ∅ (Stocks.QuotesDict aapl_only)
       "regularMarketPrice" "regularMarketChangePercent").

(** [calm_env] with keys: [before] is read while the crypto prices are
    fetched, [during i] in second [i] of the idle wait. *)
Definition keyed_env (t : Z) (feed : option (list News.news_item))
    (before : list ascii) (during : nat -> list ascii)
  : Monitor.tick_env Q :=
  {| Monitor.now := t;
     Monitor.gate := Examples.gate_eth_down;
     Monitor.keys_crypto := before;
     Monitor.clock_hour := 10;
     Monitor.clock_minute := 0;
     Monitor.tickers := ["AAPL"];
     Monitor.marks := ∅;
     Monitor.quotes := Examples.aapl_quotes;
     Monitor.keys_stocks := [];
     Monitor.feed := feed;
     Monitor.write := News.Written;
     Monitor.keys_news := [];
     Monitor.keys_sleep := during |}.

Definition at_second (n : nat) (key : ascii) (i : nat) : list ascii :=
  if (i =? n)%nat then [key] else [].

(** What a tick shows and leaves behind, when it ends normally. *)
Definition result_of (e : Monitor.tick_env Q) (st : Monitor.loop_state Q)
  : Monitor.screen Q Q * Monitor.loop_state Q :=
  Examples.ok_or (Examples.blank_screen, st) (snd (Examples.run_tick e st)).

(** First tick of a run, at clock reading 5000, with six items in the feed;
    a tick 100 seconds later; a tick with a failing feed. *)
Definition first_env : Monitor.tick_env Q :=
  keyed_env 5000 (Some Examples.six_items) [] Examples.no_keys.

Definition soon_env : Monitor.tick_env Q :=
  keyed_env 5100 (Some Examples.six_items) [] Examples.no_keys.

Definition failing_env : Monitor.tick_env Q :=
  keyed_env 5000 None [] Examples.no_keys.

Definition noisy_env : Monitor.tick_env Q :=
  keyed_env 5000 (Some Examples.six_items) ["x"; "e"; "a"]%char
    (at_second 12 "z").

Definition quit_env : Monitor.tick_env Q :=
  keyed_env 5000 (Some Examples.six_items) [] (at_second 5 "Q").

Definition manual_env : Monitor.tick_env Q :=
  keyed_env 5000 (Some Examples.six_items) [] (at_second 40 "w").

Definition start_state : Monitor.loop_state Q :=
  Monitor.initial Examples.fresh_world.

Definition first_result := result_of first_env start_state.
Definition soon_result := result_of soon_env (snd first_result).
Definition failing_result := result_of failing_env start_state.
Definition retry_result := result_of soon_env (snd failing_result).
Definition quit_result := result_of quit_env start_state.
Definition manual_result := result_of manual_env start_state.

End MoreExamples.

(** * Properties of the price resolver *)

Section ResolverProperties.

Import PriceResolver.

Context {V : Type}.
Implicit Types (q : gmap string (option V)) (s f : session).

(** The chain of field names the code walks for a session's price key is
    the specification's table, row by row. *)
Lemma fallback_order_table s :
  fallback_order (active_price_key s) = map active_price_key (table_order s).
Proof. destruct s; reflexivity. Qed.

(** The percent field found by the inner loop is the one paired with the
    price field. *)
Lemma matching_cf_paired f :
  matching_cf field_pairs (active_price_key f) = Some (active_change_key f).
Proof. destruct f; reflexivity. Qed.

Lemma walk_fallback_first_present q chain (ap ac : option V) :
  walk_fallback q (map active_price_key chain) ap ac =
    match first_present q chain with
    | Some (f, p) => (Some p, dict_get q (active_change_key f))
    | None => (ap, ac)
    end.
Proof.
  induction chain as [|f chain IH];
    cbn [walk_fallback map first_present]; [reflexivity|].
  destruct (dict_get q (active_price_key f)) as [p|] eqn:Hp.
  - now rewrite matching_cf_paired.
  - exact IH.
Qed.

Lemma first_present_none q chain :
  first_present q chain = None <-> Forall (absent q) chain.
Proof.
  induction chain as [|f chain IH]; simpl.
  - split; [constructor | reflexivity].
  - unfold absent at 1.
    destruct (dict_get q (active_price_key f)) as [p|] eqn:Hp.
    + split; [discriminate|]. intros HF. inversion HF as [|? ? Hf _]; subst.
      unfold absent in Hf. congruence.
    + rewrite IH. split; [intros HF; constructor; assumption|].
      intros HF. now inversion HF.
Qed.

Lemma first_present_in q chain f p :
  first_present q chain = Some (f, p) ->
  In f chain /\ dict_get q (active_price_key f) = Some p.
Proof.
  induction chain as [|g chain IH]; simpl; [discriminate|].
  destruct (dict_get q (active_price_key g)) as [p'|] eqn:Hp.
  - intros [= <- <-]. split; [now left | assumption].
  - intros H. destruct (IH H) as [Hin Hq]. split; [now right | assumption].
Qed.

(** What [resolve] returns, in the words of the table. *)
Lemma resolve_in_table q s :
  resolve_in q s =
    match dict_get q (active_price_key s) with
    | Some p => (Some p, dict_get q (active_change_key s))
    | None =>
        match first_present q (table_order s) with
        | Some (f, p) => (Some p, dict_get q (active_change_key f))
        | None => (None, dict_get q (active_change_key s))
        end
    end.
Proof.
  unfold resolve_in, resolve.
  destruct (dict_get q (active_price_key s)) as [p|] eqn:Hp; [reflexivity|].
  rewrite fallback_order_table. apply walk_fallback_first_present.
Qed.

(** C3 (as amended).  For every quote record and every session, the
    resolver returns the active price with the active percent field when the
    active price is present; otherwise the first price present in the
    session's fallback order (PreMarket: Overnight, Regular, AfterHours;
    Regular: PreMarket, AfterHours, Overnight; AfterHours: Regular,
    PreMarket, Overnight; Overnight: AfterHours, Regular, PreMarket) with
    the percent field paired with it, verbatim.  The price is unavailable
    if and only if the active field and every fallback field are absent,
    and in that case the change is the active percent field as read.  The
    change is always one of the record's percent fields, never computed. *)
Theorem resolve_fallback_table q s :
  (forall p, dict_get q (active_price_key s) = Some p ->
     resolve_in q s = (Some p, dict_get q (active_change_key s)))
  /\ (forall f p, dict_get q (active_price_key s) = None ->
        first_present q (table_order s) = Some (f, p) ->
        resolve_in q s = (Some p, dict_get q (active_change_key f)))
  /\ (fst (resolve_in q s) = None <-> all_absent q s)
  /\ (all_absent q s ->
        resolve_in q s = (None, dict_get q (active_change_key s)))
  /\ (exists f, snd (resolve_in q s) = dict_get q (active_change_key f)).
Proof.
  rewrite resolve_in_table. unfold all_absent, absent.
  destruct (dict_get q (active_price_key s)) as [p|] eqn:Hp.
  - split; [|split; [|split; [|split]]].
    + intros p' [= <-]. reflexivity.
    + discriminate.
    + simpl. split; [discriminate | intros [Ha _]; discriminate].
    + intros [Ha _]. discriminate.
    + exists s. reflexivity.
  - destruct (first_present q (table_order s)) as [[f p]|] eqn:Hf.
    + assert (Hn : ~ Forall (fun f0 => dict_get q (active_price_key f0) = None)
                       (table_order s)).
      { intros HF. apply first_present_none in HF. congruence. }
      split; [|split; [|split; [|split]]].
      * discriminate.
      * intros f' p' _ [= <- <-]. reflexivity.
      * simpl. split; [discriminate | intros [_ HF]; now destruct Hn].
      * intros [_ HF]. now destruct Hn.
      * exists f. reflexivity.
    + apply first_present_none in Hf.
      split; [|split; [|split; [|split]]].
      * discriminate.
      * discriminate.
      * simpl. split; [intros _; now split | reflexivity].
      * reflexivity.
      * exists s. reflexivity.
Qed.

End ResolverProperties.

(** Only the overnight fields populated, session PreMarket: the overnight
    price and its percent are returned. *)
Example resolve_overnight_only :
  PriceResolver.resolve_in Examples.overnight_only PriceResolver.PreMarket
  = (Some (101 # 1)%Q, Some (1 # 4)%Q).
Proof. vm_compute. reflexivity. Qed.

(** C3, the claim as stated fails: with every price field absent and the
    pre-market percent field present, in session PreMarket, the price is
    unavailable and the change is not. *)
Lemma resolve_percent_without_price :
  PriceResolver.all_absent Examples.percent_only PriceResolver.PreMarket
  /\ PriceResolver.resolve_in Examples.percent_only PriceResolver.PreMarket
     = (None, Some (3 # 2)%Q)
  /\ ~ (PriceResolver.unavailable_both
          (PriceResolver.resolve_in Examples.percent_only PriceResolver.PreMarket)
        <-> PriceResolver.all_absent Examples.percent_only PriceResolver.PreMarket).
Proof.
  assert (Ha : PriceResolver.all_absent Examples.percent_only
                 PriceResolver.PreMarket).
  { split; [reflexivity|]. repeat constructor. }
  assert (Hr : PriceResolver.resolve_in Examples.percent_only
                 PriceResolver.PreMarket = (None, Some (3 # 2)%Q)).
  { vm_compute. reflexivity. }
  split; [exact Ha|]. split; [exact Hr|].
  intros [_ Hback]. destruct (Hback Ha) as [_ Hc].
  rewrite Hr in Hc. discriminate.
Qed.

(** * Properties of the translation cache *)

Section CacheProperties.

Import News.

Variable backend : nat -> string -> reply.
Implicit Types (cache : gmap string string) (w : world) (text key : string).

Lemma translate_hit text cache key w stored :
  cache !! key = Some stored ->
  translate_news_text_cached backend text cache key w = (stored, cache, w).
Proof. intros H. unfold translate_news_text_cached. now rewrite H. Qed.

Lemma translate_miss text cache key w :
  cache !! key = None -> Text.is_blank text = false ->
  translate_news_text_cached backend text cache key w =
    let r := answer_text (backend (List.length (calls w)) text) in
    (r, <[key := r]> cache,
     {| disk := disk w; calls := calls w ++ [text] |}).
Proof.
  intros Hk Hb. unfold translate_news_text_cached. rewrite Hk, Hb.
  now destruct (backend _ text).
Qed.

Lemma translate_blank text cache key w :
  cache !! key = None -> Text.is_blank text = true ->
  translate_news_text_cached backend text cache key w = (text, cache, w).
Proof.
  intros Hk Hb. unfold translate_news_text_cached. now rewrite Hk, Hb.
Qed.

(** The function never touches the cache file. *)
Lemma translate_disk text cache key w :
  disk (snd (translate_news_text_cached backend text cache key w)) = disk w.
Proof.
  unfold translate_news_text_cached.
  destruct (cache !! key); [reflexivity|].
  destruct (Text.is_blank text); [reflexivity|].
  now destruct (backend _ text).
Qed.

(** The dictionary only grows. *)
Lemma translate_grows text cache key w :
  cache ⊆ snd (fst (translate_news_text_cached backend text cache key w)).
Proof.
  unfold translate_news_text_cached.
  destruct (cache !! key) eqn:Hk; [reflexivity|].
  destruct (Text.is_blank text); [reflexivity|].
  destruct (backend _ text); simpl; now apply insert_subseteq.
Qed.

(** C2 (as amended).  For a text that is not blank, two calls with the same
    key invoke the backend at most once in total; a first call that misses
    invokes it once and stores its answer (the translated text, or the
    error text when the backend raises) under the key; the second call,
    whatever its text, returns that stored text and invokes nothing. *)
Theorem translate_twice_at_most_once text text' cache key w :
  Text.is_blank text = false ->
  twice_at_most_once backend text cache key w
  /\ (cache !! key = None ->
      let '(r1, c1, w1) := translate_news_text_cached backend text cache key w in
      r1 = answer_text (backend (List.length (calls w)) text)
      /\ c1 = <[key := r1]> cache
      /\ calls w1 = (calls w ++ [text])%list
      /\ translate_news_text_cached backend text' c1 key w1 = (r1, c1, w1)).
Proof.
  intros Hb. unfold twice_at_most_once.
  destruct (cache !! key) as [stored|] eqn:Hk.
  - rewrite (translate_hit _ _ _ _ _ Hk), (translate_hit _ _ _ _ _ Hk).
    repeat split; try assumption; try discriminate. lia.
  - rewrite (translate_miss _ _ _ _ Hk Hb). cbv beta iota zeta.
    set (r := answer_text _).
    assert (Hs : <[key := r]> cache !! key = Some r) by apply lookup_insert_eq.
    rewrite (translate_hit _ _ _ _ _ Hs).
    split.
    + simpl. rewrite length_app. simpl.
      repeat split; try assumption; [lia | intros _; exact Hs].
    + intros _. repeat split. apply (translate_hit _ _ _ _ _ Hs).
Qed.

(** C10.  For a text that is empty or consists of white space only, and a
    key that is not in the cache, the function returns the text unchanged,
    sends nothing to the backend and leaves the cache as it was; the same
    therefore happens again on every later call. *)
Theorem translate_blank_unchanged text cache key w :
  Text.is_blank text = true -> cache !! key = None ->
  translate_news_text_cached backend text cache key w = (text, cache, w)
  /\ (let '(_, c1, w1) := translate_news_text_cached backend text cache key w in
      c1 !! key = None /\ calls w1 = calls w
      /\ translate_news_text_cached backend text c1 key w1 = (text, c1, w1)).
Proof.
  intros Hb Hk. rewrite (translate_blank _ _ _ _ Hk Hb).
  repeat split; try assumption. apply (translate_blank _ _ _ _ Hk Hb).
Qed.

End CacheProperties.

Lemma translate_twice_at_most_once_witness :
  Text.is_blank "Fed holds rates steady" = false
  /\ News.twice_at_most_once Examples.flaky_backend "Fed holds rates steady"
       ∅ "2024-05-01T10:00:00Z_7" Examples.fresh_world.
Proof.
  split; [reflexivity|].
  exact (proj1 (translate_twice_at_most_once Examples.flaky_backend
                  "Fed holds rates steady" "Fed holds rates steady"
                  ∅ "2024-05-01T10:00:00Z_7" Examples.fresh_world eq_refl)).
Defined.

(** C2, the claim as stated fails: for a text of two spaces and a key that
    is not in the cache, the first call stores nothing under the key, so the
    second call finds no stored text. *)
Lemma blank_miss_stores_nothing :
  (∅ : gmap string string) !! "2024-05-01T10:00:00Z_0" = None
  /\ ~ News.twice_at_most_once Examples.echo_backend "  "
         ∅ "2024-05-01T10:00:00Z_0" Examples.fresh_world.
Proof.
  split; [apply lookup_empty|].
  unfold News.twice_at_most_once.
  rewrite !(translate_blank Examples.echo_backend "  " ∅ _ _
              (lookup_empty _) eq_refl).
  intros (_ & Hstore & _). specialize (Hstore (lookup_empty _)).
  rewrite lookup_empty in Hstore. discriminate.
Qed.

Lemma translate_blank_unchanged_witness :
  Text.is_blank "  " = true
  /\ (∅ : gmap string string) !! "2024-05-01T10:00:00Z_0" = None
  /\ News.translate_news_text_cached Examples.echo_backend "  " ∅
       "2024-05-01T10:00:00Z_0" Examples.fresh_world
     = ("  ", ∅, Examples.fresh_world).
Proof.
  split; [reflexivity|]. split; [apply lookup_empty|].
  exact (proj1 (translate_blank_unchanged Examples.echo_backend "  " ∅
                  "2024-05-01T10:00:00Z_0" Examples.fresh_world
                  eq_refl (lookup_empty _))).
Defined.

(** * Persistence of the cache *)

Section Persistence.

Import News.

Variable hash : string -> Z.
Variable backend : nat -> string -> reply.
Variable format_news_time : string -> string.

Lemma process_item_spec item (cache : gmap string string) (w : world) :
  let '(_, c1, w1) :=
    process_item hash backend format_news_time item cache w in
  disk w1 = disk w /\ cache ⊆ c1.
Proof.
  unfold process_item.
  destruct (String.length _ =? 0)%nat; [split; reflexivity|].
  pose proof (translate_disk backend
    (ellipsize 200 (Text.clean_news_content (item_content item)))
    cache (get_news_key hash item) w) as Hd.
  pose proof (translate_grows backend
    (ellipsize 200 (Text.clean_news_content (item_content item)))
    cache (get_news_key hash item) w) as Hg.
  destruct (translate_news_text_cached _ _ _ _ _) as [[t c] w1].
  split; assumption.
Qed.

Lemma process_items_spec items (cache : gmap string string) (w : world) :
  let '(_, c1, w1) :=
    process_items hash backend format_news_time items cache w in
  disk w1 = disk w /\ cache ⊆ c1.
Proof.
  revert cache w. induction items as [|item rest IH]; intros cache w; simpl.
  - split; reflexivity.
  - pose proof (process_item_spec item cache w) as H1.
    destruct (process_item _ _ _ item cache w) as [[e c1] w1].
    specialize (IH c1 w1).
    destruct (process_items _ _ _ rest c1 w1) as [[es c2] w2].
    destruct H1 as [Hd1 Hg1], IH as [Hd2 Hg2].
    split; [congruence | etransitivity; eassumption].
Qed.


End Persistence.



(** While the items of one fetch are processed, two stored translations
    exist in memory only: the cache file is still missing. *)
Example two_translations_in_memory_only :
  let '(_, cache, w) :=
    News.process_items Examples.hash_run1 Examples.echo_backend
      Examples.show_time [Examples.item_oil; Examples.item_fed]
      ∅ Examples.fresh_world in
  size cache = 2%nat /\ News.disk w = News.Missing.
Proof. vm_compute. split; reflexivity. Qed.

(** * Cache keys across runs of the program *)

Section KeyProperties.

Import News.

Lemma append_cancel_l (p a b : string) : p ++ a = p ++ b -> a = b.
Proof.
  induction p as [|c p IH]; simpl; [trivial|].
  intros [= H]. now apply IH.
Qed.

Lemma str_of_int_inj (a b : Z) : Text.str_of_int a = Text.str_of_int b -> a = b.
Proof.
  unfold Text.str_of_int. intros H.
  assert (Hnz : forall z, Z.to_int z <> Decimal.Pos Decimal.Nil
                       /\ Z.to_int z <> Decimal.Neg Decimal.Nil).
  { intros z. pose proof (DecimalZ.of_to z) as Hz.
    split; intros E; rewrite E in Hz;
      destruct z; simpl in *; try discriminate;
      (destruct p; discriminate). }
  pose proof (NilZero.isi (Z.to_int a) (proj1 (Hnz a)) (proj2 (Hnz a))) as Ha.
  pose proof (NilZero.isi (Z.to_int b) (proj1 (Hnz b)) (proj2 (Hnz b))) as Hb.
  rewrite H in Ha. rewrite Ha in Hb. injection Hb as Hb.
  now apply DecimalZ.to_int_inj.
Qed.

(** The key of an item in one process equals its key in another exactly
    when the two processes' [hash] agree on the item's content preview. *)
Lemma get_news_key_agree (h1 h2 : string -> Z) (item : news_item) :
  get_news_key h1 item = get_news_key h2 item
  <-> h1 (Text.prefix_of 50 (Text.clean_news_content (item_content item)))
      = h2 (Text.prefix_of 50 (Text.clean_news_content (item_content item))).
Proof.
  unfold get_news_key. split.
  - intros H. apply append_cancel_l in H. apply append_cancel_l in H.
    now apply str_of_int_inj.
  - intros ->. reflexivity.
Qed.

End KeyProperties.

(** C1, evaluated on the code.  The key of one and the same item is
    "2024-05-01T10:00:00Z_8394159072235777926" in a process started with
    PYTHONHASHSEED=1 and "2024-05-01T10:00:00Z_-1819671974386864981" in one
    started with PYTHONHASHSEED=2.  The entry the first run writes to the
    cache file is stored under the first key; the second run loads the file,
    does not find the item under its own key, and sends the same text to the
    translation backend again. *)
Theorem news_key_differs_between_runs :
  News.get_news_key Examples.hash_run1 Examples.item_fed
    = "2024-05-01T10:00:00Z_8394159072235777926"
  /\ News.get_news_key Examples.hash_run2 Examples.item_fed
    = "2024-05-01T10:00:00Z_-1819671974386864981"
  /\ (let w1 := snd (News.fetch_latest_news Examples.hash_run1
                       Examples.echo_backend Examples.show_time 5
                       (Some [Examples.item_fed]) News.Written
                       Examples.fresh_world) in
      News.load_translation_cache w1
        !! News.get_news_key Examples.hash_run1 Examples.item_fed
        = Some "zh:Fed holds rates steady"
      /\ News.load_translation_cache w1
           !! News.get_news_key Examples.hash_run2 Examples.item_fed = None
      /\ News.calls w1 = ["Fed holds rates steady"]
      /\ News.calls (snd (News.fetch_latest_news Examples.hash_run2
                            Examples.echo_backend Examples.show_time 5
                            (Some [Examples.item_fed]) News.Written w1))
         = ["Fed holds rates steady"; "Fed holds rates steady"]).
Proof. vm_compute. repeat split. Qed.

(** * Properties of the crypto quote source *)

Section GateProperties.

Import Gate.

Context {P : Type}.
Variable parse_float : string -> option P.
Implicit Types (gate : string -> ticker_reply).

(** The loop over any list of symbols: what has been requested grows by
    the symbols up to and including the first whose request fails. *)
Lemma request_all_requested gate todo (prices : gmap string P) requested :
  exists n,
    snd (fst (request_all parse_float gate todo prices requested))
    = (requested ++ firstn n todo)%list
    /\ forallb (fun s => is_ok (quote_of parse_float (gate s)))
         (firstn (pred n) todo) = true.
Proof.
  revert prices requested.
  induction todo as [|symbol rest IH]; intros prices requested; simpl.
  - exists 0%nat. simpl. now rewrite app_nil_r.
  - destruct (quote_of parse_float (gate symbol)) as [p|e] eqn:Hq.
    + destruct (IH (<[remove_underscores symbol := p]> prices)
                  (requested ++ [symbol])%list) as (n & Hn & Hok).
      exists (S n). rewrite Hn, <- app_assoc. split; [reflexivity|].
      destruct n as [|n]; [reflexivity|].
      simpl. rewrite Hq. simpl in Hok. exact Hok.
    + exists 1%nat. simpl. split; reflexivity.
Qed.

(** C4 (as amended).  The three symbols are requested in the order
    BTC_USDT, ETH_USDT, BNB_USDT, each at most once, and the first failing
    request ends the fetch: a symbol's price is in the result if and only if
    its own request and the requests of all symbols before it succeed, and
    it is then the price of its own reply; the symbols after a failing one
    are not requested. *)
Theorem gate_stops_at_first_failure gate :
  (forall i symbol, symbols !! i = Some symbol ->
     prices_of parse_float gate !! remove_underscores symbol
     = if forallb (fun s => is_ok (quote_of parse_float (gate s)))
            (firstn i symbols)
       then price_of (quote_of parse_float (gate symbol))
       else None)
  /\ (exists n, requests_of parse_float gate = firstn n symbols
        /\ forallb (fun s => is_ok (quote_of parse_float (gate s)))
             (firstn (pred n) symbols) = true
        /\ (n < 3 -> forall symbol, symbols !! pred n = Some symbol ->
              is_ok (quote_of parse_float (gate symbol)) = false)%nat).
Proof.
  split.
  - intros i symbol Hi.
    unfold prices_of, fetch_prices_from_gate, symbols in *.
    destruct i as [|[|[|i]]]; simpl in Hi; try discriminate;
      injection Hi as <-; simpl;
      destruct (quote_of parse_float (gate "BTC_USDT"));
      destruct (quote_of parse_float (gate "ETH_USDT"));
      destruct (quote_of parse_float (gate "BNB_USDT"));
      reflexivity.
  - unfold requests_of, fetch_prices_from_gate, symbols.
    simpl.
    destruct (quote_of parse_float (gate "BTC_USDT")) eqn:H1;
      [destruct (quote_of parse_float (gate "ETH_USDT")) eqn:H2;
       [destruct (quote_of parse_float (gate "BNB_USDT")) eqn:H3|]|].
    + exists 3%nat. simpl. rewrite H1, H2. repeat split. lia.
    + exists 3%nat. simpl. rewrite H1, H2. repeat split. lia.
    + exists 2%nat. simpl. rewrite H1. repeat split.
      intros _ symbol [= <-]. now rewrite H2.
    + exists 1%nat. simpl. repeat split.
      intros _ symbol [= <-]. now rewrite H1.
Qed.

End GateProperties.

(** C4, the claim as stated fails: when the request for BTC_USDT times out
    and the exchange would answer ETH_USDT, ETHUSDT is missing from the
    result although its own request succeeds. *)
Lemma gate_first_failure_drops_later_symbols :
  Gate.succeeds Examples.parse_price Examples.gate_btc_down "ETH_USDT"
  /\ Gate.prices_of Examples.parse_price Examples.gate_btc_down !! "ETHUSDT"
     = None
  /\ Gate.requests_of Examples.parse_price Examples.gate_btc_down
     = ["BTC_USDT"]
  /\ ~ Gate.failures_isolated Examples.parse_price Examples.gate_btc_down.
Proof.
  assert (Hs : Gate.succeeds Examples.parse_price Examples.gate_btc_down
                 "ETH_USDT").
  { exists (3100 # 1)%Q. vm_compute. reflexivity. }
  assert (Hn : Gate.prices_of Examples.parse_price Examples.gate_btc_down
               !! "ETHUSDT" = None).
  { vm_compute. reflexivity. }
  repeat split; try assumption.
  intros H. specialize (H "ETH_USDT" ltac:(right; left; reflexivity) Hs).
  change (Gate.remove_underscores "ETH_USDT") with "ETHUSDT" in H.
  rewrite Hn in H. destruct H as [? H]. discriminate.
Qed.

(** With BTC_USDT answered and ETH_USDT failing, BTCUSDT is in the result
    and BNB_USDT is never requested. *)
Example gate_eth_down_result :
  Gate.prices_of Examples.parse_price Examples.gate_eth_down
    = {[ "BTCUSDT" := (128001 # 2)%Q ]}
  /\ Gate.requests_of Examples.parse_price Examples.gate_eth_down
     = ["BTC_USDT"; "ETH_USDT"].
Proof. split; vm_compute; reflexivity. Qed.

(** * Properties of the main loop *)

Section ListenerProperties.

Import Monitor.

Context {V : Type}.
Implicit Types (st : loop_state V) (keys : list ascii) (key : ascii).

Lemma same_data_refl st : same_data st st.
Proof. repeat split. Qed.

Lemma same_data_trans st1 st2 st3 :
  same_data st1 st2 -> same_data st2 st3 -> same_data st1 st3.
Proof.
  unfold same_data. intros (?&?&?&?&?) (?&?&?&?&?).
  repeat split; congruence.
Qed.

Lemma key_listener_step_data st key : same_data (key_listener_step st key) st.
Proof.
  unfold key_listener_step.
  destruct (stop_flag st), (is_key "q" key), (is_key "w" key);
    repeat split.
Qed.

Lemma key_listener_data keys st : same_data (key_listener keys st) st.
Proof.
  revert st. induction keys as [|key keys IH]; intros st; simpl.
  - apply same_data_refl.
  - eapply same_data_trans; [apply IH | apply key_listener_step_data].
Qed.

(** A pending manual refresh and a set expansion flag survive any keys. *)
Lemma key_listener_keeps_pending keys st :
  (manual_refresh_flag st = true ->
   manual_refresh_flag (key_listener keys st) = true)
  /\ (show_more_news st = true ->
      show_more_news (key_listener keys st) = true).
Proof.
  revert st. induction keys as [|key keys IH]; intros st; simpl.
  - split; trivial.
  - destruct (IH (key_listener_step st key)) as [IHm IHs].
    split; intros H; [apply IHm | apply IHs];
      unfold key_listener_step;
      destruct (stop_flag st), (is_key "q" key), (is_key "w" key);
      simpl; trivial.
Qed.

(** Keys other than 'w' leave both flags of the manual refresh alone. *)
Lemma key_listener_no_manual keys st :
  no_manual keys = true ->
  manual_refresh_flag (key_listener keys st) = manual_refresh_flag st
  /\ show_more_news (key_listener keys st) = show_more_news st.
Proof.
  revert st. induction keys as [|key keys IH]; intros st Hk; simpl.
  - split; reflexivity.
  - simpl in Hk. apply andb_prop in Hk as [Hw Hk].
    apply negb_true_iff in Hw.
    destruct (IH (key_listener_step st key) Hk) as [-> ->].
    unfold key_listener_step. rewrite Hw.
    destruct (stop_flag st), (is_key "q" key); split; reflexivity.
Qed.

(** Keys other than 'q' and 'w' change nothing. *)
Lemma key_listener_quiet keys st :
  quiet keys = true -> key_listener keys st = st.
Proof.
  revert st. induction keys as [|key keys IH]; intros st Hk; simpl.
  - reflexivity.
  - simpl in Hk. apply andb_prop in Hk as [Hqw Hk].
    apply andb_prop in Hqw as [Hq Hw].
    apply negb_true_iff in Hq, Hw.
    assert (Hstep : key_listener_step st key = st).
    { unfold key_listener_step. rewrite Hq, Hw. now destruct (stop_flag st). }
    rewrite Hstep. now apply IH.
Qed.

(** The manual-refresh key sets both flags, in either case of the letter. *)
Lemma manual_key_sets_flags st key :
  stop_flag st = false -> is_key "w" key = true ->
  manual_refresh_flag (key_listener_step st key) = true
  /\ show_more_news (key_listener_step st key) = true.
Proof.
  intros Hs Hw. unfold key_listener_step. rewrite Hs, Hw.
  assert (Hq : is_key "q" key = false).
  { revert Hw. destruct key as [[] [] [] [] [] [] [] []];
      vm_compute; congruence. }
  rewrite Hq. split; reflexivity.
Qed.

Lemma idle_wait_data fuel i (keys : nat -> list ascii) st :
  same_data (idle_wait fuel i keys st) st.
Proof.
  revert i st. induction fuel as [|fuel IH]; intros i st; simpl.
  - apply same_data_refl.
  - destruct (stop_flag st); [apply same_data_refl|].
    eapply same_data_trans; [apply IH|].
    eapply same_data_trans; [apply key_listener_data|].
    destruct ((i =? 30)%nat && show_more_news st
              && negb (manual_refresh_flag st)); repeat split.
Qed.

(** The idle wait never clears a pending manual refresh, and without the
    key 'w' it never sets one. *)
Lemma idle_wait_no_manual fuel i (keys : nat -> list ascii) st :
  (forall j, no_manual (keys j) = true) ->
  manual_refresh_flag (idle_wait fuel i keys st) = manual_refresh_flag st.
Proof.
  intros Hk. revert i st. induction fuel as [|fuel IH]; intros i st; simpl.
  - reflexivity.
  - destruct (stop_flag st); [reflexivity|].
    rewrite IH. rewrite (proj1 (key_listener_no_manual _ _ (Hk i))).
    destruct ((i =? 30)%nat && show_more_news st
              && negb (manual_refresh_flag st)); reflexivity.
Qed.

End ListenerProperties.

Section IdleWait.

Import Monitor.

Context {V : Type}.
Implicit Types (st : loop_state V).


End IdleWait.

Lemma Ok_pair_inj {A B : Type} (a a' : A) (b b' : B) :
  Ok (a, b) = Ok (a', b') -> a = a' /\ b = b'.
Proof. intros [= -> ->]. split; reflexivity. Qed.

Section TickProperties.

Import Monitor.

Context {P V : Type}.
Variable parse_float : string -> option P.
Variable hash : string -> Z.
Variable backend : nat -> string -> News.reply.
Variable format_news_time : string -> string.

Implicit Types (st : loop_state V) (e : tick_env V) (scr : screen P V).

Local Abbreviation run_tick :=
  (tick parse_float hash backend format_news_time).
Local Abbreviation run_news :=
  (refresh_news hash backend format_news_time).

Lemma stock_due_same_data t st st' force :
  last_stock_update st = last_stock_update st' -> stock_df st = stock_df st' ->
  stock_due t st force = stock_due t st' force.
Proof. intros H1 H3. unfold stock_due. now rewrite H1, H3. Qed.

Lemma news_due_same_data t st st' force :
  last_news_update st = last_news_update st' -> news_list st = news_list st' ->
  news_due t st force = news_due t st' force.
Proof. intros H2 H4. unfold news_due. now rewrite H2, H4. Qed.

Lemma stock_due_iff t st force :
  stock_due t st force = true
  <-> 300 < t - last_stock_update st \/ stock_df st = [] \/ force = true.
Proof.
  unfold stock_due. rewrite !orb_true_iff, Z.ltb_lt.
  destruct (stock_df st); simpl; intuition congruence.
Qed.

Lemma news_due_iff t st force :
  news_due t st force = true
  <-> 300 < t - last_news_update st \/ news_list st = [] \/ force = true.
Proof.
  unfold news_due. rewrite !orb_true_iff, Z.ltb_lt.
  destruct (news_list st); simpl; intuition congruence.
Qed.

Lemma consume_manual_spec st :
  fst (consume_manual st) = manual_refresh_flag st
  /\ manual_refresh_flag (snd (consume_manual st)) = false
  /\ stop_flag (snd (consume_manual st)) = stop_flag st
  /\ show_more_news (snd (consume_manual st)) = show_more_news st
  /\ same_data (snd (consume_manual st)) st.
Proof.
  unfold consume_manual. simpl.
  destruct (manual_refresh_flag st) eqn:H; repeat split; assumption.
Qed.

(** The equities step: whether it fetched, and what it leaves alone. *)
Lemma refresh_stocks_ok e force st b st3 :
  refresh_stocks e force st = Ok (b, st3) ->
  b = stock_due (now e) st force
  /\ stop_flag st3 = stop_flag st
  /\ manual_refresh_flag st3 = manual_refresh_flag st
  /\ show_more_news st3 = show_more_news st
  /\ last_news_update st3 = last_news_update st
  /\ news_list st3 = news_list st
  /\ outside st3 = outside st.
Proof.
  unfold refresh_stocks.
  destruct (stock_due (now e) st force).
  - destruct (PriceResolver.detect_session _ _) as [[s pk] ck].
    destruct (Stocks.fetch_all_stocks _ _ _ _ _) as [df|x]; [|discriminate].
    intros [= <- <-]. repeat split.
  - intros [= <- <-]. repeat split.
Qed.

Lemma refresh_stocks_raise e force st x :
  refresh_stocks e force st = Raise x ->
  stock_due (now e) st force = true /\ quotes e = Stocks.QuotesRaise x.
Proof.
  unfold refresh_stocks.
  destruct (stock_due (now e) st force); [|discriminate].
  destruct (PriceResolver.detect_session _ _) as [[s pk] ck].
  unfold Stocks.fetch_all_stocks.
  destruct (tickers e); [discriminate|].
  destruct (quotes e); try discriminate.
  intros [= <-]. split; reflexivity.
Qed.

(** The news step: whether it fetched, with which count, and what it
    leaves alone. *)
Lemma refresh_news_spec e force st :
  fst (run_news e force st) = news_due (now e) st force
  /\ stop_flag (snd (run_news e force st)) = stop_flag st
  /\ manual_refresh_flag (snd (run_news e force st)) = manual_refresh_flag st
  /\ show_more_news (snd (run_news e force st)) = show_more_news st
  /\ news_list (snd (run_news e force st))
     = if news_due (now e) st force
       then fst (News.fetch_latest_news hash backend format_news_time
                   (news_count st) (feed e) (write e) (outside st))
       else news_list st.
Proof.
  unfold refresh_news.
  destruct (news_due (now e) st force); [|repeat split].
  destruct (News.fetch_latest_news _ _ _ _ _ _ _) as [nl w].
  repeat split.
Qed.

(** An iteration, step by step. *)
Lemma tick_unfold e st :
  run_tick e st =
    let st1 := key_listener (keys_crypto e) st in
    let pending := manual_refresh_flag st1 in
    match refresh_stocks e pending (snd (consume_manual st1)) with
    | Raise x => (classes true false, Raise x)
    | Ok (b3, st3) =>
        let r := run_news e pending (key_listener (keys_stocks e) st3) in
        let st6 := key_listener (keys_news e) (snd r) in
        (classes b3 (fst r),
         Ok (display pending (Gate.prices_of parse_float (gate e)) st6,
             idle_wait 60 0 (keys_sleep e) st6))
    end.
Proof.
  unfold tick, consume_manual. cbv zeta. cbn [snd fst].
  destruct (refresh_stocks e _ _) as [[b3 st3]|x]; [|reflexivity].
  destruct (refresh_news _ _ _ e _ _) as [b5 st5]. reflexivity.
Qed.

Lemma tick_ok e st scr st' :
  snd (run_tick e st) = Ok (scr, st') ->
  let st1 := key_listener (keys_crypto e) st in
  let pending := manual_refresh_flag st1 in
  exists b3 st3,
    refresh_stocks e pending (snd (consume_manual st1)) = Ok (b3, st3)
    /\ let r := run_news e pending (key_listener (keys_stocks e) st3) in
       let st6 := key_listener (keys_news e) (snd r) in
       fst (run_tick e st) = classes b3 (fst r)
       /\ scr = display pending (Gate.prices_of parse_float (gate e)) st6
       /\ st' = idle_wait 60 0 (keys_sleep e) st6.
Proof.
  rewrite tick_unfold. cbv zeta.
  destruct (refresh_stocks e _ _) as [[b3 st3]|x] eqn:Hs; [|discriminate].
  cbn [snd fst]. intros H. apply Ok_pair_inj in H as [<- <-].
  exists b3, st3. split; [reflexivity|].
  split; [reflexivity|]. split; reflexivity.
Qed.

Lemma tick_raise e st x :
  snd (run_tick e st) = Raise x ->
  let st1 := key_listener (keys_crypto e) st in
  refresh_stocks e (manual_refresh_flag st1) (snd (consume_manual st1))
    = Raise x
  /\ fst (run_tick e st) = classes true false.
Proof.
  rewrite tick_unfold. cbv zeta.
  destruct (refresh_stocks e _ _) as [[b3 st3]|y] eqn:Hs.
  - cbn [snd]. discriminate.
  - cbn [snd fst]. intros [= <-]. split; reflexivity.
Qed.

Lemma in_classes (a b : bool) :
  In Crypto (classes a b)
  /\ (In Equities (classes a b) <-> a = true)
  /\ (In NewsFeed (classes a b) <-> b = true).
Proof.
  destruct a, b; simpl; intuition (try discriminate; auto).
Qed.

(** Which fetch functions an iteration calls.  [pending] is the manual
    refresh flag as line 373 reads it. *)
Lemma tick_classes e st :
  let pending := manual_refresh_flag (key_listener (keys_crypto e) st) in
  In Crypto (fst (run_tick e st))
  /\ (In Equities (fst (run_tick e st))
      <-> stock_due (now e) st pending = true)
  /\ (forall scr st', snd (run_tick e st) = Ok (scr, st') ->
        (In NewsFeed (fst (run_tick e st))
         <-> news_due (now e) st pending = true)).
Proof.
  intros pending.
  pose proof (key_listener_data (keys_crypto e) st) as (D1 & D2 & D3 & D4 & _).
  pose proof (consume_manual_spec (key_listener (keys_crypto e) st))
    as (_ & _ & _ & _ & (C1 & C2 & C3 & C4 & _)).
  destruct (snd (run_tick e st)) as [[scr st']|x] eqn:Hr.
  - destruct (tick_ok _ _ _ _ Hr) as (b3 & st3 & Hs & Hf & _ & _).
    cbv zeta in Hf. fold pending in Hs, Hf. rewrite Hf.
    destruct (refresh_stocks_ok _ _ _ _ _ Hs)
      as (Hb3 & _ & _ & _ & S5 & S6 & _).
    pose proof (key_listener_data (keys_stocks e) st3) as (_ & K2 & _ & K4 & _).
    destruct (in_classes b3 (fst (run_news e pending
                (key_listener (keys_stocks e) st3)))) as (Hc & He & Hn).
    split; [exact Hc|]. split.
    + rewrite He, Hb3.
      rewrite (stock_due_same_data (now e) _ st pending); [tauto| |]; congruence.
    + intros scr0 st0 _. rewrite Hn.
      rewrite (proj1 (refresh_news_spec e pending _)).
      rewrite (news_due_same_data (now e) _ st pending); [tauto| |]; congruence.
  - destruct (tick_raise _ _ _ Hr) as (Hs & Hf). cbv zeta in Hs.
    fold pending in Hs.
    rewrite Hf. destruct (refresh_stocks_raise _ _ _ _ Hs) as (Hd & _).
    rewrite (stock_due_same_data (now e) _ st pending) in Hd by congruence.
    destruct (in_classes true false) as (Hc & He & _).
    split; [exact Hc|]. split; [rewrite He; tauto|]. discriminate.
Qed.

(** C7 (as amended).  On every tick the crypto prices are refetched.  The
    equities are refetched if and only if more than 300 seconds have passed
    since their last update (strictly more), or the equities table is empty
    (never fetched, or the last fetch returned no row), or a manual refresh
    is pending when the flag is read.  On a tick that ends normally, the
    news are refetched if and only if more than 300 seconds have passed
    since their last update, or the news list is empty, or a manual refresh
    is pending. *)
Theorem refetch_conditions e st :
  let pending := manual_refresh_flag (key_listener (keys_crypto e) st) in
  In Crypto (fst (run_tick e st))
  /\ (In Equities (fst (run_tick e st))
      <-> 300 < now e - last_stock_update st \/ stock_df st = []
          \/ pending = true)
  /\ (forall scr st', snd (run_tick e st) = Ok (scr, st') ->
        (In NewsFeed (fst (run_tick e st))
         <-> 300 < now e - last_news_update st \/ news_list st = []
             \/ pending = true)).
Proof.
  intros pending. destruct (tick_classes e st) as (Hc & He & Hn).
  split; [exact Hc|]. split.
  - rewrite He. apply stock_due_iff.
  - intros scr st' Hr. rewrite (Hn scr st' Hr). apply news_due_iff.
Qed.

(** The flags at the end of an iteration that ends normally, in terms of
    the flags after line 375. *)
Lemma tick_manual_flag e st scr st' :
  snd (run_tick e st) = Ok (scr, st') ->
  no_manual (keys_stocks e) = true -> no_manual (keys_news e) = true ->
  (forall i, no_manual (keys_sleep e i) = true) ->
  manual_refresh_flag st' = false.
Proof.
  intros Hr Hk1 Hk2 Hk3.
  destruct (tick_ok _ _ _ _ Hr) as (b3 & st3 & Hs & _ & _ & ->).
  rewrite (idle_wait_no_manual _ _ _ _ Hk3).
  rewrite (proj1 (key_listener_no_manual _ _ Hk2)).
  destruct (refresh_news_spec e
              (manual_refresh_flag (key_listener (keys_crypto e) st))
              (key_listener (keys_stocks e) st3)) as (_ & _ & -> & _).
  rewrite (proj1 (key_listener_no_manual _ _ Hk1)).
  destruct (refresh_stocks_ok _ _ _ _ _ Hs) as (_ & _ & -> & _).
  apply consume_manual_spec.
Qed.

(** C6.  If the manual refresh flag is set at the start of a tick, the
    crypto and the equities fetch are called on that tick whatever the time,
    the news are due as well, and on a tick that ends normally the news
    fetch is called too; the flag is
    cleared when it is read, so that, with no further manual refresh key,
    it is false at the end of the tick and when the following tick reads
    it, and on that following tick the equities and the news are refetched
    only on account of elapsed time or an empty snapshot. *)
Theorem manual_refresh_consumed_once e e' st :
  manual_refresh_flag st = true ->
  (In Crypto (fst (run_tick e st)) /\ In Equities (fst (run_tick e st))
   /\ news_due (now e) st
        (manual_refresh_flag (key_listener (keys_crypto e) st)) = true)
  /\ forall scr st', snd (run_tick e st) = Ok (scr, st') ->
       fst (run_tick e st) = [Crypto; Equities; NewsFeed]
       /\ (no_manual (keys_stocks e) = true ->
           no_manual (keys_news e) = true ->
           (forall i, no_manual (keys_sleep e i) = true) ->
           no_manual (keys_crypto e') = true ->
           manual_refresh_flag st' = false
           /\ manual_refresh_flag (key_listener (keys_crypto e') st') = false
           /\ (In Equities (fst (run_tick e' st'))
               <-> 300 < now e' - last_stock_update st' \/ stock_df st' = [])
           /\ (forall scr' st'', snd (run_tick e' st') = Ok (scr', st'') ->
                 (In NewsFeed (fst (run_tick e' st'))
                  <-> 300 < now e' - last_news_update st'
                      \/ news_list st' = []))).
Proof.
  intros Hm.
  pose proof (proj1 (key_listener_keeps_pending (keys_crypto e) st) Hm) as Hp.
  destruct (tick_classes e st) as (Hc & He & Hn). cbv zeta in He, Hn.
  rewrite Hp in He, Hn.
  assert (Hsd : stock_due (now e) st true = true)
    by (unfold stock_due; apply orb_true_r).
  assert (Hnd : news_due (now e) st true = true)
    by (unfold news_due; apply orb_true_r).
  split; [split; [exact Hc | split; [now apply He | now rewrite Hp]]|].
  intros scr st' Hr. split.
  - destruct (tick_ok _ _ _ _ Hr) as (b3 & st3 & Hs & Hf & _ & _).
    cbv zeta in Hf. rewrite Hf.
    destruct (in_classes b3 (fst (run_news e
      (manual_refresh_flag (key_listener (keys_crypto e) st))
      (key_listener (keys_stocks e) st3)))) as (_ & He' & Hn').
    rewrite <- Hf in He', Hn'.
    rewrite (proj1 He' (proj2 He Hsd)).
    rewrite (proj1 Hn' (proj2 (Hn scr st' Hr) Hnd)). reflexivity.
  - intros Hk1 Hk2 Hk3 Hk4.
    pose proof (tick_manual_flag _ _ _ _ Hr Hk1 Hk2 Hk3) as Hm'.
    assert (Hp' : manual_refresh_flag (key_listener (keys_crypto e') st')
                  = false).
    { now rewrite (proj1 (key_listener_no_manual _ _ Hk4)). }
    split; [exact Hm'|]. split; [exact Hp'|].
    destruct (tick_classes e' st') as (_ & He2 & Hn2). cbv zeta in He2, Hn2.
    rewrite Hp' in He2, Hn2. split.
    + rewrite He2, stock_due_iff. intuition discriminate.
    + intros scr' st'' Hr'. rewrite (Hn2 _ _ Hr'), news_due_iff.
      intuition discriminate.
Qed.





Lemma resolve_empty (pk ck : string) :
  PriceResolver.resolve (∅ : gmap string (option V)) pk ck = (None, None).
Proof.
  assert (Hg : forall k, dict_get (∅ : gmap string (option V)) k = None).
  { intros k. unfold dict_get. now rewrite lookup_empty. }
  unfold PriceResolver.resolve. rewrite !Hg.
  induction (PriceResolver.fallback_order pk) as [|pf rest IH];
    cbn [PriceResolver.walk_fallback]; [reflexivity|].
  now rewrite Hg.
Qed.





End TickProperties.

(** ** The loop on concrete ticks *)

(** C7, the claim as stated fails: exactly 300 seconds after the last
    equities update, with a non-empty table and no manual refresh, the
    specification's rule says the equities are due, and the tick does not
    refetch them. *)
Lemma equities_not_refetched_at_300 :
  Monitor.spec_due (Monitor.spec_cadence Monitor.Equities)
    1300 (Monitor.last_stock_update Examples.shown_state) false
    (Monitor.manual_refresh_flag Examples.shown_state) = true
  /\ ~ In Monitor.Equities
         (fst (Examples.run_tick
                 (Examples.calm_env 1300 Examples.aapl_quotes
                    (Some Examples.six_items))
                 Examples.shown_state)).
Proof.
  split; [reflexivity|].
  vm_compute. intros [H|[]]. discriminate.
Qed.


(** An exception of the equities quote request is not caught: it leaves
    the tick, and with it [main]. *)
Example equities_exception_leaves_main :
  Monitor.main_loop Examples.parse_price Examples.hash_run1
    Examples.echo_backend Examples.show_time
    [Examples.calm_env 1400 (Stocks.QuotesRaise "ConnectionError") None]
    Examples.shown_state
  = ([], Raise "ConnectionError").
Proof. vm_compute. reflexivity. Qed.


Lemma manual_refresh_consumed_once_witness :
  Monitor.manual_refresh_flag Examples.pending_state = true
  /\ In Monitor.Crypto
       (fst (Examples.run_tick
               (Examples.calm_env 1010 Examples.aapl_quotes
                  (Some Examples.six_items))
               Examples.pending_state))
  /\ In Monitor.Equities
       (fst (Examples.run_tick
               (Examples.calm_env 1010 Examples.aapl_quotes
                  (Some Examples.six_items))
               Examples.pending_state))
  /\ Monitor.news_due 1010 Examples.pending_state true = true.
Proof.
  split; [reflexivity|].
  exact (proj1 (manual_refresh_consumed_once Examples.parse_price
                  Examples.hash_run1 Examples.echo_backend Examples.show_time
                  (Examples.calm_env 1010 Examples.aapl_quotes
                     (Some Examples.six_items))
                  (Examples.calm_env 1400 Examples.aapl_quotes
                     (Some Examples.six_items))
                  Examples.pending_state eq_refl)).
Defined.



(** * Properties of the text normalisation *)

Section CleanProperties.

Import Text TextShape.
Local Open Scope list_scope.
Local Open Scope nat_scope.
Implicit Types (l p s : list ascii) (c : ascii).

Lemma lstrip_split l :
  exists p, l = p ++ lstrip l /\ forallb py_isspace p = true.
Proof.
  induction l as [|c l IH]; simpl.
  - exists []. split; reflexivity.
  - destruct (py_isspace c) eqn:Hc.
    + destruct IH as (p & Hp & Hw). exists (c :: p). simpl.
      rewrite Hc, Hw. split; [now f_equal | reflexivity].
    + exists []. split; reflexivity.
Qed.

Lemma lstrip_starts_clean l : starts_clean (lstrip l) = true.
Proof.
  induction l as [|c l IH]; simpl; [reflexivity|].
  destruct (py_isspace c) eqn:Hc; [exact IH|]. simpl. now rewrite Hc.
Qed.

Lemma lstrip_clean l : starts_clean l = true -> lstrip l = l.
Proof.
  destruct l as [|c l]; simpl; [reflexivity|].
  intros H. apply negb_true_iff in H. now rewrite H.
Qed.

(** [strip_chars l] sits inside [l], between two runs of white space. *)
Lemma strip_chars_split l :
  exists p s, l = p ++ strip_chars l ++ s
    /\ forallb py_isspace p = true /\ forallb py_isspace s = true.
Proof.
  unfold strip_chars.
  destruct (lstrip_split l) as (p & Hp & Hwp).
  destruct (lstrip_split (rev (lstrip l))) as (q & Hq & Hwq).
  exists p, (rev q). split; [|split; [exact Hwp|]].
  - rewrite Hp at 1. f_equal.
    rewrite <- (rev_involutive (lstrip l)) at 1. rewrite Hq at 1.
    now rewrite rev_app_distr.
  - rewrite forallb_forall in *. intros x Hx. apply Hwq.
    now apply in_rev.
Qed.

Lemma starts_clean_app l s :
  l <> [] -> starts_clean (l ++ s) = starts_clean l.
Proof. destruct l; [contradiction | reflexivity]. Qed.

Lemma starts_clean_suffix_rev l x p :
  rev l = p ++ x -> starts_clean l = true -> starts_clean (rev x) = true.
Proof.
  intros H Hl.
  assert (Hl' : l = rev x ++ rev p).
  { rewrite <- (rev_involutive l), H. apply rev_app_distr. }
  destruct (rev x) as [|c r] eqn:Hx; [reflexivity|].
  rewrite Hl' in Hl. exact Hl.
Qed.

Lemma strip_chars_ends l :
  starts_clean (strip_chars l) = true
  /\ starts_clean (rev (strip_chars l)) = true.
Proof.
  unfold strip_chars. rewrite rev_involutive. split.
  - destruct (lstrip_split (rev (lstrip l))) as (q & Hq & _).
    apply (starts_clean_suffix_rev (lstrip l) _ q Hq).
    apply lstrip_starts_clean.
  - apply lstrip_starts_clean.
Qed.

Lemma strip_chars_clean l :
  starts_clean l = true -> starts_clean (rev l) = true -> strip_chars l = l.
Proof.
  intros H1 H2. unfold strip_chars.
  rewrite (lstrip_clean l H1), (lstrip_clean _ H2). apply rev_involutive.
Qed.


Lemma spaced_weaken b l : spaced b l = true -> spaced false l = true.
Proof.
  destruct b; [|trivial]. destruct l as [|c l]; simpl; [trivial|].
  destruct (py_isspace c); [discriminate | trivial].
Qed.

Lemma spaced_collapse b l : spaced b (collapse_ws b l) = true.
Proof.
  revert b. induction l as [|c l IH]; intros b; simpl; [reflexivity|].
  destruct (py_isspace c) eqn:Hc.
  - destruct b; [apply IH|]. simpl. now rewrite IH.
  - simpl. rewrite Hc. apply IH.
Qed.

Lemma collapse_spaced b l : spaced b l = true -> collapse_ws b l = l.
Proof.
  revert b. induction l as [|c l IH]; intros b; simpl; [reflexivity|].
  destruct (py_isspace c) eqn:Hc.
  - intros H. apply andb_prop in H as [H Hl]. apply andb_prop in H as [Hb He].
    apply negb_true_iff in Hb. apply Ascii.eqb_eq in He. subst b c.
    now rewrite (IH true Hl).
  - intros H. now rewrite (IH false H).
Qed.

Lemma spaced_suffix b p l : spaced b (p ++ l) = true -> spaced false l = true.
Proof.
  revert b. induction p as [|c p IH]; intros b; simpl.
  - apply spaced_weaken.
  - destruct (py_isspace c).
    + intros H. apply andb_prop in H as [_ H]. exact (IH _ H).
    + apply IH.
Qed.

Lemma spaced_prefix b l s : spaced b (l ++ s) = true -> spaced b l = true.
Proof.
  revert b. induction l as [|c l IH]; intros b; simpl; [trivial|].
  destruct (py_isspace c).
  - intros H. apply andb_prop in H as [H Hl]. rewrite H. exact (IH _ Hl).
  - apply IH.
Qed.

(** What [spaced] says, position by position. *)
Lemma spaced_at b l1 c l2 :
  spaced b (l1 ++ c :: l2) = true -> py_isspace c = true ->
  c = " "%char /\ starts_clean l2 = true.
Proof.
  intros H Hc. apply spaced_suffix in H. simpl in H. rewrite Hc in H.
  simpl in H. apply andb_prop in H as [He Hl].
  apply Ascii.eqb_eq in He. split; [exact He|].
  destruct l2 as [|c2 l2]; [reflexivity|]. simpl in *.
  destruct (py_isspace c2); [discriminate | reflexivity].
Qed.

(** Tags *)

Lemma after_gt_none l :
  after_gt l = None <-> forallb (fun c => negb (Ascii.eqb c ">")) l = true.
Proof.
  induction l as [|c l IH]; simpl; [tauto|].
  destruct (Ascii.eqb c ">"); simpl; [split; discriminate | exact IH].
Qed.

Lemma close_tag_none l :
  close_tag l = None
  <-> l = [] \/ (exists r, l = ">"%char :: r)
      \/ forallb (fun c => negb (Ascii.eqb c ">")) l = true.
Proof.
  destruct l as [|c l]; simpl; [tauto|].
  destruct (Ascii.eqb_spec c ">") as [->|Hne]; simpl.
  - split; [intros _; right; left; eauto | trivial].
  - rewrite after_gt_none. split; [tauto|].
    intros [H|[(r & H)|H]]; [discriminate | congruence | exact H].
Qed.

Lemma strip_tags_from_incl fuel l c :
  In c (strip_tags_from fuel l) -> In c l.
Proof.
  revert l. induction fuel as [|fuel IH]; intros l; simpl; [trivial|].
  destruct l as [|x l]; [trivial|].
  destruct (Ascii.eqb x "<").
  - destruct (close_tag l) as [r|] eqn:Hr.
    + intros H. apply IH in H. right.
      destruct l as [|y l]; [discriminate|]. simpl in Hr.
      destruct (Ascii.eqb y ">"); [discriminate|].
      right. clear -Hr H. revert r Hr H.
      induction l as [|z l IHl]; intros r Hr H; simpl in Hr; [discriminate|].
      destruct (Ascii.eqb z ">"); [injection Hr as <-; now right|].
      right. eapply IHl; eassumption.
    + intros [->|H]; [now left | right; now apply IH].
  - intros [->|H]; [now left | right; now apply IH].
Qed.

Lemma after_gt_length l r : after_gt l = Some r -> length r < length l.
Proof.
  revert r. induction l as [|c l IH]; intros r; simpl; [discriminate|].
  destruct (Ascii.eqb c ">"); [intros [= <-]; lia|].
  intros H. apply IH in H. lia.
Qed.

Lemma close_tag_length l r : close_tag l = Some r -> length r < length l.
Proof.
  destruct l as [|c l]; simpl; [discriminate|].
  destruct (Ascii.eqb c ">"); [discriminate|].
  intros H. apply after_gt_length in H. lia.
Qed.

Lemma close_tag_strip_none fuel l :
  close_tag l = None -> close_tag (strip_tags_from fuel l) = None.
Proof.
  intros H. apply close_tag_none in H. apply close_tag_none.
  destruct H as [->|[(r & ->)|H]].
  - left. now destruct fuel.
  - right. left. destruct fuel; simpl; eauto.
  - right. right. rewrite forallb_forall in *. intros c Hc.
    apply H. eapply strip_tags_from_incl. exact Hc.
Qed.

Lemma tagless_strip fuel l :
  length l <= fuel -> tagless (strip_tags_from fuel l) = true.
Proof.
  revert l. induction fuel as [|fuel IH]; intros l Hl.
  - destruct l; [reflexivity | simpl in Hl; lia].
  - destruct l as [|c l]; [reflexivity|]. simpl in Hl. simpl.
    destruct (Ascii.eqb c "<") eqn:Hc.
    + destruct (close_tag l) as [r|] eqn:Hr.
      * apply IH. apply close_tag_length in Hr. lia.
      * simpl. rewrite Hc, (close_tag_strip_none fuel l Hr). simpl.
        apply IH. lia.
    + simpl. rewrite Hc. simpl. apply IH. lia.
Qed.

Lemma strip_tagless fuel l : tagless l = true -> strip_tags_from fuel l = l.
Proof.
  revert l. induction fuel as [|fuel IH]; intros l; simpl; [trivial|].
  destruct l as [|c l]; [trivial|]. simpl.
  intros H. apply andb_prop in H as [Hc Hl].
  destruct (Ascii.eqb c "<").
  - destruct (close_tag l); [discriminate|]. now rewrite IH.
  - now rewrite IH.
Qed.


Lemma collapse_incl b l c :
  In c (collapse_ws b l) -> In c l \/ c = " "%char.
Proof.
  revert b. induction l as [|x l IH]; intros b; simpl; [tauto|].
  destruct (py_isspace x).
  - destruct b.
    + intros H. destruct (IH _ H); tauto.
    + intros [<-|H]; [tauto|]. destruct (IH _ H); tauto.
  - intros [<-|H]; [tauto|]. destruct (IH _ H); tauto.
Qed.

Lemma close_tag_collapse l :
  close_tag l = None -> close_tag (collapse_ws false l) = None.
Proof.
  intros H. apply close_tag_none in H. apply close_tag_none.
  destruct H as [->|[(r & ->)|H]].
  - now left.
  - right. left. simpl. eauto.
  - right. right. rewrite forallb_forall in *. intros c Hc.
    destruct (collapse_incl _ _ _ Hc) as [Hin| ->]; [now apply H | reflexivity].
Qed.

Lemma tagless_collapse b l :
  tagless l = true -> tagless (collapse_ws b l) = true.
Proof.
  revert b. induction l as [|c l IH]; intros b; simpl; [trivial|].
  intros H. apply andb_prop in H as [Hc Hl].
  destruct (py_isspace c) eqn:Hw.
  - destruct b; [now apply IH|]. simpl. now apply IH.
  - simpl. rewrite (IH false Hl), andb_true_r.
    destruct (Ascii.eqb c "<"); [|reflexivity].
    destruct (close_tag l) eqn:Hr; [discriminate|].
    now rewrite (close_tag_collapse l Hr).
Qed.

Lemma tagless_suffix p l : tagless (p ++ l) = true -> tagless l = true.
Proof.
  induction p as [|c p IH]; simpl; [trivial|].
  intros H. apply andb_prop in H as [_ H]. now apply IH.
Qed.

Lemma close_tag_prefix l s :
  close_tag (l ++ s) = None -> close_tag l = None.
Proof.
  intros H. apply close_tag_none in H. apply close_tag_none.
  destruct H as [H|[(r & H)|H]].
  - left. now destruct l.
  - destruct l as [|c l]; [now left|]. right. left.
    injection H as -> _. eauto.
  - right. right. rewrite forallb_app in H. now apply andb_prop in H as [H _].
Qed.

Lemma tagless_prefix l s : tagless (l ++ s) = true -> tagless l = true.
Proof.
  induction l as [|c l IH]; simpl; [trivial|].
  intros H. apply andb_prop in H as [Hc Hl]. rewrite (IH Hl), andb_true_r.
  destruct (Ascii.eqb c "<"); [|reflexivity].
  destruct (close_tag (l ++ s)) eqn:Hr; [discriminate|].
  now rewrite (close_tag_prefix l s Hr).
Qed.

Lemma strip_tags_from_length fuel l :
  length (strip_tags_from fuel l) <= length l.
Proof.
  revert l. induction fuel as [|fuel IH]; intros l; simpl; [lia|].
  destruct l as [|c l]; [simpl; lia|].
  destruct (Ascii.eqb c "<").
  - destruct (close_tag l) as [r|] eqn:Hr.
    + apply close_tag_length in Hr. specialize (IH r). simpl. lia.
    + specialize (IH l). simpl. lia.
  - specialize (IH l). simpl. lia.
Qed.

Lemma collapse_length b l : length (collapse_ws b l) <= length l.
Proof.
  revert b. induction l as [|c l IH]; intros b; simpl; [lia|].
  destruct (py_isspace c); [destruct b|]; simpl;
    [specialize (IH true) | specialize (IH true) | specialize (IH false)]; lia.
Qed.

Lemma strip_chars_length l : length (strip_chars l) <= length l.
Proof.
  destruct (strip_chars_split l) as (p & s & H & _).
  rewrite H at 2. rewrite !length_app. lia.
Qed.

(** The characters of the cleaned text. *)
Lemma clean_chars content :
  list_ascii_of_string (clean_news_content content)
  = strip_chars (collapse_ws false
      (strip_tags (list_ascii_of_string content))).
Proof. apply list_ascii_of_string_of_list_ascii. Qed.

Lemma clean_shape content :
  let l := list_ascii_of_string (clean_news_content content) in
  starts_clean l = true /\ starts_clean (rev l) = true
  /\ spaced false l = true /\ tagless l = true.
Proof.
  cbv zeta. rewrite clean_chars.
  set (t := strip_tags (list_ascii_of_string content)).
  destruct (strip_chars_ends (collapse_ws false t)) as (H1 & H2).
  destruct (strip_chars_split (collapse_ws false t)) as (p & s & Hs & _).
  split; [exact H1|]. split; [exact H2|]. split.
  - pose proof (spaced_collapse false t) as H. rewrite Hs in H.
    apply spaced_suffix in H. now apply spaced_prefix in H.
  - assert (H : tagless (collapse_ws false t) = true).
    { apply tagless_collapse. apply tagless_strip. reflexivity. }
    rewrite Hs in H. apply tagless_suffix in H. now apply tagless_prefix in H.
Qed.

(** X1.  The cleaned text neither starts nor ends with white space, its
    only white-space character is the space, and no space follows another
    one. *)
Theorem clean_news_content_normalised content :
  let l := list_ascii_of_string (clean_news_content content) in
  (forall c r, l = c :: r -> py_isspace c = false)
  /\ (forall c r, l = r ++ [c] -> py_isspace c = false)
  /\ (forall l1 c l2, l = l1 ++ c :: l2 -> py_isspace c = true ->
        c = " "%char
        /\ forall c2 r, l2 = c2 :: r -> py_isspace c2 = false).
Proof.
  destruct (clean_shape content) as (H1 & H2 & H3 & _). cbv zeta.
  set (l := list_ascii_of_string (clean_news_content content)) in *.
  split; [|split].
  - intros c r E. rewrite E in H1. now apply negb_true_iff in H1.
  - intros c r E. rewrite E, rev_unit in H2. now apply negb_true_iff in H2.
  - intros l1 c l2 E Hc. rewrite E in H3.
    destruct (spaced_at _ _ _ _ H3 Hc) as (He & Hn). split; [exact He|].
    intros c2 r ->. now apply negb_true_iff in Hn.
Qed.

(** X2.  Cleaning a cleaned text changes nothing. *)
Theorem clean_news_content_idempotent content :
  clean_news_content (clean_news_content content) = clean_news_content content.
Proof.
  destruct (clean_shape content) as (H1 & H2 & H3 & H4). cbv zeta in *.
  unfold clean_news_content at 1.
  set (l := list_ascii_of_string (clean_news_content content)) in *.
  unfold strip_tags. rewrite (strip_tagless _ l H4).
  rewrite (collapse_spaced false l H3), (strip_chars_clean l H1 H2).
  apply string_of_list_ascii_of_string.
Qed.

(** X3.  No markup tag survives the cleaning: the cleaned text contains no
    ['<'] followed by one or more characters other than ['>'] and a
    ['>']. *)
Theorem clean_news_content_no_tag content :
  ~ exists l1 body l2,
      list_ascii_of_string (clean_news_content content)
      = l1 ++ "<"%char :: body ++ ">"%char :: l2
      /\ body <> []
      /\ forallb (fun c => negb (Ascii.eqb c ">")) body = true.
Proof.
  intros (l1 & body & l2 & E & Hb & Hn).
  destruct (clean_shape content) as (_ & _ & _ & H).
  cbv zeta in H. rewrite E in H. apply tagless_suffix in H.
  simpl in H. apply andb_prop in H as [H _].
  destruct body as [|c body]; [contradiction|]. simpl in H, Hn.
  apply andb_prop in Hn as [Hc Hn]. apply negb_true_iff in Hc.
  rewrite Hc in H.
  assert (Ha : after_gt (body ++ ">"%char :: l2) = Some l2).
  { clear -Hn. induction body as [|x body IH]; simpl; [reflexivity|].
    simpl in Hn. apply andb_prop in Hn as [Hx Hn].
    apply negb_true_iff in Hx. rewrite Hx. now apply IH. }
  rewrite Ha in H. discriminate.
Qed.

(** X4.  Cleaning never lengthens a text. *)
Theorem clean_news_content_length content :
  String.length (clean_news_content content) <= String.length content.
Proof.
  assert (Hlen : forall x : string,
            String.length x = length (list_ascii_of_string x)).
  { induction x as [|c x IH]; simpl; [reflexivity | now rewrite IH]. }
  rewrite !Hlen, clean_chars.
  pose proof (strip_chars_length (collapse_ws false
                (strip_tags (list_ascii_of_string content)))).
  pose proof (collapse_length false
                (strip_tags (list_ascii_of_string content))).
  pose proof (strip_tags_from_length
                (length (list_ascii_of_string content))
                (list_ascii_of_string content)).
  unfold strip_tags in *. lia.
Qed.

End CleanProperties.

(** * Properties of the news feed *)

Section SortProperties.

Import News NewsShape.
Local Open Scope list_scope.
Local Open Scope nat_scope.

Lemma string_compare_OT (a b : string) :
  String.compare a b = String_as_OT.compare a b.
Proof.
  revert b. induction a as [|x a IH]; destruct b as [|y b]; simpl; trivial;
    unfold Ascii_as_OT.compare, Ascii.compare, N_as_OT.compare;
    destruct (N.compare _ _); trivial.
Qed.

Lemma ltb_false_iff (a b : string) :
  String.ltb a b = false <-> a = b \/ String_as_OT.lt b a.
Proof.
  unfold String.ltb. rewrite string_compare_OT.
  destruct (String_as_OT.compare_spec a b) as [E|L|G].
  - split; [now left | trivial].
  - split; [discriminate|]. intros [E|G].
    + subst. now apply (StrictOrder_Irreflexive b) in L.
    + exfalso. apply (StrictOrder_Irreflexive a).
      eapply (StrictOrder_Transitive a b a); eassumption.
  - split; [now right | trivial].
Qed.

Lemma not_before_trans a b c : not_before a b -> not_before b c -> not_before a c.
Proof.
  unfold not_before. rewrite !ltb_false_iff.
  intros [E1|L1] [E2|L2].
  - left. congruence.
  - right. now rewrite E1.
  - right. now rewrite <- E2.
  - right. eapply (StrictOrder_Transitive _ (item_time b)); eassumption.
Qed.

Lemma ltb_true_not_before a b :
  String.ltb (item_time a) (item_time b) = true -> not_before b a.
Proof.
  unfold not_before. intros H. apply ltb_false_iff.
  right. unfold String.ltb in H. rewrite string_compare_OT in H.
  destruct (String_as_OT.compare_spec (item_time a) (item_time b));
    try discriminate. assumption.
Qed.

Lemma insert_desc_perm x l : Permutation (x :: l) (insert_desc x l).
Proof.
  induction l as [|y l IH]; simpl; [reflexivity|].
  destruct (String.ltb _ _); [|reflexivity].
  rewrite perm_swap. now constructor.
Qed.

Lemma insert_desc_sorted x l :
  Sorted not_before l -> Sorted not_before (insert_desc x l).
Proof.
  induction l as [|y l IH]; simpl; intros Hs.
  - repeat constructor.
  - destruct (String.ltb (item_time x) (item_time y)) eqn:Hxy.
    + inversion Hs as [|? ? Hl Hh]; subst. constructor; [now apply IH|].
      destruct l as [|z l]; simpl.
      * constructor. now apply ltb_true_not_before.
      * destruct (String.ltb (item_time x) (item_time z)).
        -- inversion Hh; subst. now constructor.
        -- constructor. now apply ltb_true_not_before.
    + constructor; [exact Hs|]. constructor. exact Hxy.
Qed.

Lemma insert_desc_filter t x l :
  List.filter (fun i => String.eqb (item_time i) t) (insert_desc x l)
  = List.filter (fun i => String.eqb (item_time i) t) (x :: l).
Proof.
  induction l as [|y l IH]; [reflexivity|].
  cbn [insert_desc].
  destruct (String.ltb (item_time x) (item_time y)) eqn:Hxy; [|reflexivity].
  cbn [List.filter] in *. rewrite IH.
  destruct (String.eqb_spec (item_time x) t) as [Ex|Nx]; [|reflexivity].
  destruct (String.eqb_spec (item_time y) t) as [Ey|Ny]; [|reflexivity].
  exfalso. rewrite Ex, Ey in Hxy. unfold String.ltb in Hxy.
  rewrite string_compare_OT in Hxy.
  destruct (String_as_OT.compare_spec t t) as [_|L|L]; try discriminate.
  now apply (StrictOrder_Irreflexive t) in L.
Qed.

(** X5.  The sort of [fetch_latest_news] rearranges the feed without losing
    or duplicating an item, every item is followed only by items that are
    not later than it, and items with equal time stamps keep the order they
    have in the feed. *)
Theorem sorted_desc_newest_first (data : list news_item) :
  Permutation data (sorted_desc data)
  /\ StronglySorted not_before (sorted_desc data)
  /\ forall t,
       List.filter (fun i => String.eqb (item_time i) t) (sorted_desc data)
       = List.filter (fun i => String.eqb (item_time i) t) data.
Proof.
  split; [|split].
  - induction data as [|x l IH]; simpl; [constructor|].
    rewrite <- insert_desc_perm. now constructor.
  - apply Sorted_StronglySorted; [exact not_before_trans|].
    induction data as [|x l IH]; simpl; [constructor|].
    now apply insert_desc_sorted.
  - intros t. induction data as [|x l IH]; [reflexivity|].
    cbn [sorted_desc foldr]. rewrite insert_desc_filter.
    cbn [List.filter]. fold (sorted_desc l). now rewrite IH.
Qed.

End SortProperties.

Section FetchProperties.

Import News Text TextShape NewsShape.
Local Open Scope list_scope.
Local Open Scope nat_scope.

Variable hash : string -> Z.
Variable backend : nat -> string -> reply.
Variable format_news_time : string -> string.

Lemma string_length_chars (x : string) :
  String.length x = length (list_ascii_of_string x).
Proof. induction x as [|c x IH]; simpl; [reflexivity | now rewrite IH]. Qed.




(** A text that starts with a character other than white space is not
    blank. *)
Lemma not_blank_of_head c (x : string) :
  py_isspace c = false -> is_blank (String c x) = false.
Proof.
  intros Hc. unfold is_blank, strip.
  rewrite string_length_chars, list_ascii_of_string_of_list_ascii.
  destruct (strip_chars_split (list_ascii_of_string (String c x)))
    as (p & s & Hs & Hp & Hq).
  destruct (strip_chars (list_ascii_of_string (String c x))) as [|y r];
    [|reflexivity].
  exfalso. simpl in Hs.
  assert (Hin : In c (p ++ s)) by (rewrite <- Hs; now left).
  assert (Hall : forallb py_isspace (p ++ s) = true)
    by (rewrite forallb_app, Hp, Hq; reflexivity).
  rewrite forallb_forall in Hall. rewrite (Hall c Hin) in Hc. discriminate.
Qed.

Lemma ellipsize_head n c (x : string) :
  exists y, ellipsize (S n) (String c x) = String c y.
Proof.
  unfold ellipsize. destruct (S n <? String.length (String c x)).
  - unfold prefix_of. simpl. eauto.
  - eauto.
Qed.

(** The text of a non-empty cleaned content that is handed to the
    translation function. *)
Lemma cleaned_text_not_blank content :
  (String.length (clean_news_content content) =? 0) = false ->
  is_blank (ellipsize 200 (clean_news_content content)) = false.
Proof.
  intros Hne. destruct (clean_shape content) as (H1 & _). cbv zeta in H1.
  destruct (clean_news_content content) as [|c x]; [discriminate|].
  simpl in H1. apply negb_true_iff in H1.
  destruct (ellipsize_head 199 c x) as (y & ->).
  now apply not_blank_of_head.
Qed.






Lemma save_calls o (cache : gmap string string) (w : world) :
  calls (save_translation_cache o cache w) = calls w.
Proof. now destruct o. Qed.



(** A loop iteration whose result is already in the cache: it changes
    neither the cache nor the world. *)
Lemma process_item_replay item (cA c1 c' : gmap string string)
    (wA w1 w' : world) e :
  process_item hash backend format_news_time item cA wA = (e, c1, w1) ->
  c1 ⊆ c' ->
  process_item hash backend format_news_time item c' w' = (e, c', w').
Proof.
  unfold process_item.
  destruct (String.length (clean_news_content (item_content item)) =? 0)
    eqn:Hz.
  - intros [= <- <- <-] _. reflexivity.
  - pose proof (cleaned_text_not_blank _ Hz) as Hb.
    set (text := ellipsize 200 (clean_news_content (item_content item))) in *.
    set (key := get_news_key hash item).
    unfold translate_news_text_cached. rewrite Hb.
    destruct (cA !! key) as [stored|] eqn:Hk.
    + intros [= <- <- <-] Hsub.
      now rewrite (lookup_weaken _ _ _ _ Hk Hsub).
    + destruct (backend (length (calls wA)) text) as [t|x];
        intros [= <- <- <-] Hsub;
        now rewrite (lookup_weaken _ c' key _ (lookup_insert_eq _ _ _) Hsub).
Qed.

Lemma process_items_replay items (cA c2 c' : gmap string string)
    (wA w2 w' : world) es :
  process_items hash backend format_news_time items cA wA = (es, c2, w2) ->
  c2 ⊆ c' ->
  process_items hash backend format_news_time items c' w' = (es, c', w').
Proof.
  revert cA wA es. induction items as [|item rest IH]; intros cA wA es; simpl.
  - intros [= <- <- <-] _. reflexivity.
  - destruct (process_item _ _ _ item cA wA) as [[e c1] w1] eqn:H1.
    pose proof (process_items_spec hash backend format_news_time rest c1 w1)
      as Hg.
    destruct (process_items _ _ _ rest c1 w1) as [[es' c3] w3] eqn:H2.
    destruct Hg as (_ & Hg).
    intros [= <- <- <-] Hsub.
    rewrite (process_item_replay _ _ _ c' _ _ w' _ H1);
      [|etransitivity; eassumption].
    now rewrite (IH _ _ _ H2 Hsub).
Qed.

(** X8.  After a fetch whose cache write succeeded, fetching the same feed
    again in the same process returns the same entries and sends nothing to
    the translation backend, error texts included: a failed translation is
    not retried. *)
Theorem refetch_costs_no_translation (count : nat)
    (data : option (list news_item)) (o2 : write_outcome) (w : world) :
  let r1 := fetch_latest_news hash backend format_news_time
              count data Written w in
  let r2 := fetch_latest_news hash backend format_news_time
              count data o2 (snd r1) in
  fst r2 = fst r1 /\ calls (snd r2) = calls (snd r1).
Proof.
  cbv zeta. unfold fetch_latest_news.
  destruct data as [[|item rest]|]; try (split; reflexivity).
  set (sel := firstn count (sorted_desc (item :: rest))).
  destruct (process_items _ _ _ sel (load_translation_cache w) w)
    as [[es c1] w1] eqn:H1.
  cbn [fst snd save_translation_cache load_translation_cache disk].
  rewrite (process_items_replay _ _ _ c1 _ _
             {| disk := Stored c1; calls := calls w1 |} _ H1); [|reflexivity].
  cbn [fst snd]. rewrite save_calls. split; reflexivity.
Qed.

(** X9.  Two items with the same time stamp whose non-empty cleaned contents
    agree on the first fifty characters have the same key: processed one
    after the other they are shown with one and the same translation, and
    the backend is called at most once. *)
Theorem same_preview_shares_translation (a b : news_item)
    (cache : gmap string string) (w : world) :
  item_time a = item_time b ->
  prefix_of 50 (clean_news_content (item_content a))
  = prefix_of 50 (clean_news_content (item_content b)) ->
  (String.length (clean_news_content (item_content a)) =? 0) = false ->
  (String.length (clean_news_content (item_content b)) =? 0) = false ->
  get_news_key hash a = get_news_key hash b
  /\ let '(es, _, w1) :=
       process_items hash backend format_news_time [a; b] cache w in
     (exists t, map entry_content es = [ellipsize 100 t; ellipsize 100 t])
     /\ length (calls w1) <= S (length (calls w)).
Proof.
  intros Ht Hp Ha Hb.
  assert (Hk : get_news_key hash a = get_news_key hash b).
  { unfold get_news_key. now rewrite Ht, Hp. }
  split; [exact Hk|]. simpl. unfold process_item. rewrite Ha, Hb, <- Hk.
  pose proof (cleaned_text_not_blank _ Ha) as Hba.
  set (ta := ellipsize 200 (clean_news_content (item_content a))) in *.
  set (tb := ellipsize 200 (clean_news_content (item_content b))).
  set (key := get_news_key hash a).
  unfold translate_news_text_cached at 1.
  destruct (cache !! key) as [stored|] eqn:Hc.
  - unfold translate_news_text_cached. rewrite Hc. cbn.
    split; [eauto | lia].
  - rewrite Hba.
    destruct (backend (length (calls w)) ta) as [t|x];
      unfold translate_news_text_cached; rewrite lookup_insert_eq; cbn;
      (split; [eauto | rewrite length_app; simpl; lia]).
Qed.

End FetchProperties.

(** * Properties of the equities table *)

Section StocksProperties.

Import PriceResolver Stocks.
Local Open Scope list_scope.

Context {V : Type}.
Implicit Types (q : gmap string (option V)) (ms : gmap string string)
  (ts : list string) (quotes : quotes_reply V).

Ltac perm_step :=
  first [ apply perm_nil
        | apply perm_skip
        | apply (Permutation_cons_app [_] _ _)
        | apply (Permutation_cons_app [_; _] _ _)
        | apply (Permutation_cons_app [_; _; _] _ _) ]; simpl.

(** X10.  Whatever the clock reads, the price and change keys that
    [detect_session] selects are one of the four field pairs, and the
    fallback order for that price key consists of the other three price
    fields, each exactly once. *)
Theorem session_keys_cover_field_pairs (hour minute : Z) :
  let '(_, price_key, change_key) := detect_session hour minute in
  In (price_key, change_key) field_pairs
  /\ Permutation (price_key :: fallback_order price_key)
       (map fst field_pairs).
Proof.
  unfold detect_session. destruct (session_of_clock hour minute); simpl;
    (split; [tauto | repeat perm_step]).
Qed.

Lemma make_row_fields ms q pk ck t :
  last_close (make_row ms q pk ck t) = dict_get q "regularMarketPrice"
  /\ price (make_row ms q pk ck t) = fst (resolve q pk ck)
  /\ change (make_row ms q pk ck t) = snd (resolve q pk ck).
Proof.
  unfold make_row. destruct (resolve q pk ck). repeat split.
Qed.

Lemma dict_get_empty (k : string) :
  dict_get (∅ : gmap string (option V)) k = None.
Proof. unfold dict_get. now rewrite lookup_empty. Qed.

(** The rows of a table, as a function of the ticker list. *)
Lemma fetch_all_stocks_rows ts ms quotes pk ck df :
  fetch_all_stocks ts ms quotes pk ck = Ok df ->
  df = map (fun t =>
              make_row ms
                (quote_for (match quotes with
                            | QuotesDict m => Some m
                            | _ => None
                            end) t) pk ck t) ts.
Proof.
  unfold fetch_all_stocks. destruct ts as [|t ts]; [now intros [= <-]|].
  destruct quotes; [discriminate | |]; now intros [= <-].
Qed.


(** X12.  A ticker for which the quote dictionary has no entry, or an entry
    that is not a dictionary, still gets its row: last close, price and
    change are all unavailable. *)
Theorem missing_quote_gives_empty_row ts ms
    (m : gmap string (option (gmap string (option V)))) pk ck df i t :
  fetch_all_stocks ts ms (QuotesDict m) pk ck = Ok df ->
  ts !! i = Some t ->
  m !! t = None \/ m !! t = Some None ->
  exists r, df !! i = Some r
    /\ last_close r = None /\ price r = None /\ change r = None.
Proof.
  intros Hdf Hi Hm. apply fetch_all_stocks_rows in Hdf. subst df.
  rewrite list_lookup_fmap, Hi. eexists. split; [reflexivity|]. cbv beta.
  assert (Hq : quote_for (Some m) t = ∅).
  { unfold quote_for. now destruct Hm as [-> | ->]. }
  rewrite Hq. destruct (make_row_fields ms ∅ pk ck t) as (-> & -> & ->).
  rewrite resolve_empty, dict_get_empty. repeat split.
Qed.

Lemma resolve_price_present q s p :
  dict_get q "regularMarketPrice" = Some p ->
  fst (resolve q (active_price_key s) (active_change_key s)) <> None
  /\ (s = Regular ->
      fst (resolve q (active_price_key s) (active_change_key s)) = Some p).
Proof.
  intros Hp.
  pose proof (resolve_in_table q s) as Ht. unfold resolve_in in Ht.
  rewrite Ht. split.
  - destruct (dict_get q (active_price_key s)) eqn:Ha; [discriminate|].
    destruct (first_present q (table_order s)) as [[f p']|] eqn:Hf;
      [discriminate|].
    apply first_present_none in Hf. exfalso.
    destruct s; simpl in Ha, Hf;
      repeat match goal with
             | H : Forall _ (_ :: _) |- _ => inversion H; clear H; subst
             end;
      unfold absent in *; simpl in *; congruence.
  - intros ->. simpl. now rewrite Hp.
Qed.

(** X13.  The "Last Close" column holds the regular-market price.  A row
    that shows a last close therefore always shows a price, and during the
    regular session the price shown is that very value. *)
Theorem last_close_is_regular_price ts ms quotes hour minute df :
  (let '(_, pk, ck) := detect_session hour minute in
   fetch_all_stocks ts ms quotes pk ck) = Ok df ->
  Forall (fun r =>
            (last_close r <> None -> price r <> None)
            /\ (session_of_clock hour minute = Regular ->
                last_close r <> None -> price r = last_close r)) df.
Proof.
  unfold detect_session. set (s := session_of_clock hour minute).
  intros Hdf. apply fetch_all_stocks_rows in Hdf. subst df.
  apply Forall_forall. intros r Hr. apply list_elem_of_fmap in Hr as (t & -> & _).
  match goal with |- context [make_row ms ?qq _ _ t] => set (q := qq) end.
  destruct (make_row_fields ms q (active_price_key s) (active_change_key s) t)
    as (-> & -> & _).
  destruct (dict_get q "regularMarketPrice") as [p|] eqn:Hp.
  - destruct (resolve_price_present q s p Hp) as (H1 & H2).
    split; [intros _; exact H1 | intros Hs _; now apply H2].
  - split; [now intros H | intros _ H; now destruct H].
Qed.

End StocksProperties.

(** * Properties of the ticker file *)

Section TickerProperties.

Import Ticker Text.
Local Open Scope list_scope.
Local Open Scope nat_scope.

Variable upper : string -> string.

Lemma lstrip_all_ws (l : list ascii) :
  forallb py_isspace l = true -> lstrip l = [].
Proof.
  induction l as [|c l IH]; simpl; [reflexivity|].
  intros H. apply andb_prop in H as [Hc Hl]. rewrite Hc. now apply IH.
Qed.

Lemma is_blank_iff (x : string) :
  is_blank x = true <-> forallb py_isspace (list_ascii_of_string x) = true.
Proof.
  unfold is_blank, strip. set (l := list_ascii_of_string x).
  assert (Hlen : forall y : string,
            String.length y = length (list_ascii_of_string y)).
  { induction y as [|c y IH]; simpl; [reflexivity | now rewrite IH]. }
  rewrite Hlen, list_ascii_of_string_of_list_ascii, Nat.eqb_eq.
  split.
  - intros H. destruct (strip_chars_split l) as (p & s & Hs & Hp & Hq).
    destruct (strip_chars l); [|discriminate].
    rewrite Hs. simpl. rewrite forallb_app, Hp, Hq. reflexivity.
  - intros H. unfold strip_chars. now rewrite (lstrip_all_ws l H).
Qed.

Lemma split_from_nil (cur l : list ascii) :
  split_from cur l = [] <-> cur = [] /\ forallb py_isspace l = true.
Proof.
  revert cur. induction l as [|c l IH]; intros cur; simpl.
  - destruct cur; split; try tauto; try discriminate.
    intros [H _]. discriminate.
  - destruct (py_isspace c); simpl.
    + destruct cur.
      * rewrite IH. tauto.
      * split; [discriminate | intros [H _]; discriminate].
    + rewrite IH. split; [intros [H _]; discriminate | intros [_ H]; discriminate].
Qed.

Lemma split_nil_iff (line : string) : split line = [] <-> is_blank line = true.
Proof.
  unfold split. rewrite split_from_nil, is_blank_iff. tauto.
Qed.

Lemma mark_of_values parts :
  mark_of parts = "" \/ mark_of parts = "🚀" \/ mark_of parts = "⚡".
Proof.
  destruct parts as [|a [|b r]]; simpl; auto.
  destruct (String.eqb b "1"); auto. destruct (String.eqb b "2"); auto.
Qed.

Lemma read_line_entry acc line :
  read_line upper acc line
  = match line_entry upper line with
    | None => acc
    | Some (t, mark) =>
        (fst acc ++ [t],
         if String.length mark =? 0 then snd acc else <[t := mark]> (snd acc))
    end.
Proof.
  unfold read_line, line_entry. now destruct (split line).
Qed.

Lemma read_lines_tickers lines acc :
  fst (fold_left (read_line upper) lines acc)
  = fst acc ++ line_tickers upper lines.
Proof.
  revert acc. induction lines as [|line rest IH]; intros acc.
  - simpl. now rewrite app_nil_r.
  - cbn [fold_left]. rewrite IH, read_line_entry. unfold line_tickers.
    cbn [omap list_omap]. fold (omap (fun line => fst <$> line_entry upper line) rest).
    destruct (line_entry upper line) as [[t mark]|]; simpl; [|reflexivity].
    now rewrite <- app_assoc.
Qed.

Lemma read_lines_marks lines acc t :
  snd (fold_left (read_line upper) lines acc) !! t
  = last_mark upper t lines (snd acc !! t).
Proof.
  revert acc. induction lines as [|line rest IH]; intros acc; [reflexivity|].
  cbn [fold_left last_mark]. rewrite IH, read_line_entry.
  destruct (line_entry upper line) as [[t' mark]|]; [|reflexivity].
  cbn [snd]. destruct (String.length mark =? 0); simpl.
  - now rewrite andb_false_r.
  - rewrite andb_true_r.
    destruct (String.eqb_spec t' t) as [->|Hne].
    + now rewrite lookup_insert_eq.
    + now rewrite lookup_insert_ne.
Qed.

Lemma last_mark_origin t lines found m :
  last_mark upper t lines found = Some m ->
  found = Some m
  \/ exists line, In line lines /\ line_entry upper line = Some (t, m)
       /\ (String.length m =? 0) = false.
Proof.
  revert found. induction lines as [|line rest IH]; intros found; simpl.
  - now left.
  - destruct (line_entry upper line) as [[t' mark]|] eqn:He.
    + destruct (String.eqb_spec t' t) as [->|Hne]; simpl.
      * destruct (String.length mark =? 0) eqn:Hz; simpl; intros H;
          destruct (IH _ H) as [Hf|(l & Hl & Hle)]; eauto.
        injection Hf as ->. right. eauto.
      * intros H. destruct (IH _ H) as [Hf|(l & Hl & Hle)]; eauto.
    + intros H. destruct (IH _ H) as [Hf|(l & Hl & Hle)]; eauto.
Qed.

Lemma line_tickers_in t m line lines :
  In line lines -> line_entry upper line = Some (t, m) ->
  In t (line_tickers upper lines).
Proof.
  intros Hin He. apply list_elem_of_In. unfold line_tickers.
  apply list_elem_of_omap. exists line. split; [now apply list_elem_of_In|].
  now rewrite He.
Qed.

Lemma line_tickers_length lines :
  length (line_tickers upper lines)
  = length (List.filter (fun l => negb (is_blank l)) lines).
Proof.
  induction lines as [|line rest IH]; [reflexivity|].
  unfold line_tickers in *. cbn [omap list_omap List.filter].
  unfold line_entry at 1.
  destruct (split line) as [|first parts] eqn:Hs.
  - apply split_nil_iff in Hs. rewrite Hs. simpl. exact IH.
  - assert (Hb : is_blank line = false).
    { destruct (is_blank line) eqn:E; [|reflexivity].
      apply split_nil_iff in E. congruence. }
    rewrite Hb. simpl. now rewrite IH.
Qed.

(** X14.  [read_stocks] yields one ticker for every line that is not blank
    (none when the file is missing), and every ticker that has a mark is in
    the ticker list and its mark is one of the two glyphs. *)
Theorem read_stocks_tickers_and_marks (file : option (list string)) :
  let '(tickers, marks) := read_stocks upper file in
  length tickers
  = match file with
    | Some lines => length (List.filter (fun l => negb (is_blank l)) lines)
    | None => 0
    end
  /\ forall t m, marks !! t = Some m ->
       In t tickers /\ (m = "🚀"%string \/ m = "⚡"%string).
Proof.
  unfold read_stocks. destruct file as [lines|].
  - pose proof (read_lines_tickers lines ([], ∅)) as Ht.
    pose proof (fun t => read_lines_marks lines ([], ∅) t) as Hm.
    destruct (fold_left (read_line upper) lines ([], ∅)) as [tickers marks].
    simpl in Ht, Hm. subst tickers. split; [apply line_tickers_length|].
    intros t m H. rewrite Hm, lookup_empty in H.
    destruct (last_mark_origin _ _ _ _ H) as [Hf|(line & Hl & He & Hz)];
      [discriminate|].
    split; [eapply line_tickers_in; eassumption|].
    unfold line_entry in He. destruct (split line) as [|a parts]; [discriminate|].
    injection He as _ Hmk.
    change (mark_of (a :: parts) = m) in Hmk. subst m.
    destruct (mark_of_values (a :: parts)) as [E|E]; [|exact E].
    rewrite E in Hz. discriminate.
  - split; [reflexivity|]. intros t m H. now rewrite lookup_empty in H.
Qed.

(** The marks dictionary, ticker by ticker, as a scan of the lines. *)
Theorem read_stocks_last_mark_wins (lines : list string) (t : string) :
  snd (read_stocks upper (Some lines)) !! t = last_mark upper t lines None.
Proof.
  unfold read_stocks. rewrite read_lines_marks. simpl.
  now rewrite lookup_empty.
Qed.

(** X16.  With a missing ticker file, or one whose lines are all blank,
    [fetch_all_stocks] returns the empty table whatever the quote source
    would do, an exception included: the source is not consulted. *)
Theorem blank_file_gives_empty_table {V : Type} (file : option (list string))
    (quotes : Stocks.quotes_reply V) (pk ck : string) :
  match file with
  | Some lines => forallb is_blank lines = true
  | None => True
  end ->
  Stocks.fetch_all_stocks (fst (read_stocks upper file))
    (snd (read_stocks upper file)) quotes pk ck = Ok [].
Proof.
  intros Hf.
  assert (Ht : fst (read_stocks upper file) = []).
  { destruct file as [lines|]; [|reflexivity]. unfold read_stocks.
    rewrite read_lines_tickers. simpl.
    apply length_zero_iff_nil. rewrite line_tickers_length.
    induction lines as [|line rest IH]; [reflexivity|].
    simpl in Hf. apply andb_prop in Hf as [Hl Hr].
    cbn [List.filter]. rewrite Hl. simpl. now apply IH. }
  now rewrite Ht.
Qed.

End TickerProperties.

(** * Further properties of the main loop *)

Section LoopProperties.

Import Monitor MonitorShape.
Local Open Scope list_scope.

Context {P V : Type}.
Variable parse_float : string -> option P.
Variable hash : string -> Z.
Variable backend : nat -> string -> News.reply.
Variable format_news_time : string -> string.

Implicit Types (st : loop_state V) (e : tick_env V) (scr : screen P V).

Local Abbreviation run_tick :=
  (tick parse_float hash backend format_news_time).
Local Abbreviation run_news :=
  (refresh_news hash backend format_news_time).
Local Abbreviation run_loop :=
  (main_loop parse_float hash backend format_news_time).

Lemma refresh_stocks_effect e force st b st3 :
  refresh_stocks e force st = Ok (b, st3) ->
  if b then last_stock_update st3 = now e
  else st3 = st.
Proof.
  unfold refresh_stocks. destruct (stock_due (now e) st force).
  - destruct (PriceResolver.detect_session _ _) as [[s pk] ck].
    destruct (Stocks.fetch_all_stocks _ _ _ _ _) as [df|x]; [|discriminate].
    now intros [= <- <-].
  - now intros [= <- <-].
Qed.

Lemma refresh_news_effect e force st :
  last_stock_update (snd (run_news e force st)) = last_stock_update st
  /\ stock_df (snd (run_news e force st)) = stock_df st
  /\ if fst (run_news e force st)
     then last_news_update (snd (run_news e force st)) = now e
     else snd (run_news e force st) = st.
Proof.
  unfold refresh_news. destruct (news_due (now e) st force).
  - destruct (News.fetch_latest_news _ _ _ _ _ _ _) as [nl w]. now simpl.
  - now simpl.
Qed.

(** What an iteration that ends normally shows and leaves behind, class by
    class. *)
Lemma tick_data e st scr st' :
  snd (run_tick e st) = Ok (scr, st') ->
  stock_df st' = stock_rows scr /\ news_list st' = news_lines scr
  /\ (In Equities (fst (run_tick e st)) -> last_stock_update st' = now e)
  /\ (~ In Equities (fst (run_tick e st)) ->
      last_stock_update st' = last_stock_update st
      /\ stock_df st' = stock_df st)
  /\ (In NewsFeed (fst (run_tick e st)) -> last_news_update st' = now e)
  /\ (~ In NewsFeed (fst (run_tick e st)) ->
      last_news_update st' = last_news_update st
      /\ news_list st' = news_list st).
Proof.
  intros Hr.
  destruct (tick_ok _ _ _ _ _ _ _ _ Hr) as (b3 & st3 & Hs & Hf & Hscr & Hst).
  cbv zeta in Hf, Hscr, Hst.
  set (pending := manual_refresh_flag (key_listener (keys_crypto e) st)) in *.
  set (st4 := key_listener (keys_stocks e) st3) in *.
  set (r := run_news e pending st4) in *.
  set (st6 := key_listener (keys_news e) (snd r)) in *.
  destruct (idle_wait_data 60 0 (keys_sleep e) st6)
    as (I1 & I2 & I3 & I4 & _). rewrite <- Hst in I1, I2, I3, I4.
  destruct (key_listener_data (keys_news e) (snd r))
    as (K1 & K2 & K3 & K4 & _). fold st6 in K1, K2, K3, K4.
  destruct (key_listener_data (keys_stocks e) st3)
    as (L1 & L2 & L3 & L4 & _). fold st4 in L1, L2, L3, L4.
  destruct (key_listener_data (keys_crypto e) st) as (D1 & D2 & D3 & D4 & _).
  destruct (consume_manual_spec (key_listener (keys_crypto e) st))
    as (_ & _ & _ & _ & (C1 & C2 & C3 & C4 & _)).
  destruct (refresh_stocks_ok _ _ _ _ _ Hs) as (_ & _ & _ & _ & S5 & S6 & _).
  pose proof (refresh_stocks_effect _ _ _ _ _ Hs) as S1.
  destruct (refresh_news_effect e pending st4) as (N1 & N3 & N2).
  fold r in N1, N3, N2.
  destruct (in_classes b3 (fst r)) as (_ & He & Hn).
  rewrite <- Hf in He, Hn.
  split; [rewrite Hscr; cbn [stock_rows display]; exact I3|].
  split; [rewrite Hscr; cbn [news_lines display]; exact I4|].
  split; [|split; [|split]].
  - intros Hin. apply He in Hin. subst b3. congruence.
  - intros Hin. destruct b3; [now destruct Hin; apply He|]. subst st3.
    split; congruence.
  - intros Hin. apply Hn in Hin. rewrite Hin in N2. congruence.
  - intros Hin. destruct (fst r) eqn:Hb; [now destruct Hin; apply Hn|].
    split; congruence.
Qed.


(** X17.  On a tick that ends normally, a class that is not refetched is
    shown exactly as it was and keeps its time stamp (and a tick without a
    news fetch leaves the cache file and the backend alone); a class that is
    refetched gets the tick's clock reading as its time stamp. *)
Theorem class_not_fetched_is_unchanged e st scr st' :
  snd (run_tick e st) = Ok (scr, st') ->
  (~ In Equities (fst (run_tick e st)) ->
   stock_rows scr = stock_df st
   /\ last_stock_update st' = last_stock_update st)
  /\ (~ In NewsFeed (fst (run_tick e st)) ->
      news_lines scr = news_list st
      /\ last_news_update st' = last_news_update st
      /\ outside st' = outside st)
  /\ (In Equities (fst (run_tick e st)) -> last_stock_update st' = now e)
  /\ (In NewsFeed (fst (run_tick e st)) -> last_news_update st' = now e).
Proof.
  intros Hr. destruct (tick_data _ _ _ _ Hr) as (H1 & H2 & H3 & H4 & H5 & H6).
  split; [|split; [|split; assumption]].
  - intros Hin. destruct (H4 Hin). split; congruence.
  - intros Hin. destruct (H6 Hin). split; [congruence|]. split; [assumption|].
    destruct (tick_ok _ _ _ _ _ _ _ _ Hr) as (b3 & st3 & Hs & Hf & _ & Hst).
    cbv zeta in Hf, Hst.
    set (pending := manual_refresh_flag (key_listener (keys_crypto e) st)) in *.
    set (r := run_news e pending (key_listener (keys_stocks e) st3)) in *.
    destruct (in_classes b3 (fst r)) as (_ & _ & Hn). rewrite <- Hf in Hn.
    destruct (refresh_news_effect e pending (key_listener (keys_stocks e) st3))
      as (_ & _ & N2). fold r in N2.
    destruct (fst r); [now destruct Hin; apply Hn|].
    rewrite Hst.
    destruct (idle_wait_data 60 0 (keys_sleep e)
                (key_listener (keys_news e) (snd r))) as (_ & _ & _ & _ & ->).
    destruct (key_listener_data (keys_news e) (snd r))
      as (_ & _ & _ & _ & ->). rewrite N2.
    destruct (key_listener_data (keys_stocks e) st3) as (_ & _ & _ & _ & ->).
    destruct (refresh_stocks_ok _ _ _ _ _ Hs) as (_ & _ & _ & _ & _ & _ & ->).
    destruct (consume_manual_spec (key_listener (keys_crypto e) st))
      as (_ & _ & _ & _ & (_ & _ & _ & _ & ->)).
    now destruct (key_listener_data (keys_crypto e) st) as (_ & _ & _ & _ & ->).
Qed.

(** X18.  After a tick that refetched the equities (the news) and got a
    non-empty result, the next tick does not refetch them if at most 300
    seconds have passed and no manual refresh was keyed in meanwhile. *)
Theorem fetched_class_rests_300_seconds e e' st scr st' :
  snd (run_tick e st) = Ok (scr, st') ->
  no_manual (keys_stocks e) = true -> no_manual (keys_news e) = true ->
  (forall i, no_manual (keys_sleep e i) = true) ->
  no_manual (keys_crypto e') = true ->
  now e' - now e <= 300 ->
  (In Equities (fst (run_tick e st)) -> stock_rows scr <> [] ->
   ~ In Equities (fst (run_tick e' st')))
  /\ (In NewsFeed (fst (run_tick e st)) -> news_lines scr <> [] ->
      ~ In NewsFeed (fst (run_tick e' st'))).
Proof.
  intros Hr Hk1 Hk2 Hk3 Hk4 Ht.
  destruct (tick_data _ _ _ _ Hr) as (H1 & H2 & H3 & _ & H5 & _).
  pose proof (tick_manual_flag _ _ _ _ _ _ _ _ Hr Hk1 Hk2 Hk3) as Hm.
  assert (Hp : manual_refresh_flag (key_listener (keys_crypto e') st') = false).
  { now rewrite (proj1 (key_listener_no_manual _ _ Hk4)). }
  destruct (tick_classes parse_float hash backend format_news_time e' st')
    as (_ & He & Hn). cbv zeta in He, Hn. rewrite Hp in He, Hn.
  split.
  - intros Hin Hne. rewrite He, stock_due_iff.
    rewrite (H3 Hin), H1. intros [H|[H|H]]; [lia | contradiction | discriminate].
  - intros Hin Hne Hin'.
    destruct (snd (run_tick e' st')) as [[scr' st'']|x] eqn:Hr'.
    + apply (Hn _ _ eq_refl) in Hin'. apply news_due_iff in Hin'.
      rewrite (H5 Hin), H2 in Hin'.
      destruct Hin' as [H|[H|H]]; [lia | contradiction | discriminate].
    + destruct (tick_raise _ _ _ _ _ _ _ Hr') as (_ & Hf).
      rewrite Hf in Hin'. apply (in_classes true false) in Hin'. discriminate.
Qed.

(** X19.  A class whose snapshot is empty after a tick (a failed or empty
    news feed, an empty ticker list) is refetched on the very next tick,
    whatever the time passed: the 300-second cadence does not apply to
    it. *)
Theorem empty_snapshot_is_refetched_every_tick e e' st scr st' :
  snd (run_tick e st) = Ok (scr, st') ->
  (stock_rows scr = [] -> In Equities (fst (run_tick e' st')))
  /\ (news_lines scr = [] ->
      forall scr' st'', snd (run_tick e' st') = Ok (scr', st'') ->
        In NewsFeed (fst (run_tick e' st'))).
Proof.
  intros Hr. destruct (tick_data _ _ _ _ Hr) as (H1 & H2 & _).
  destruct (tick_classes parse_float hash backend format_news_time e' st')
    as (_ & He & Hn). cbv zeta in He, Hn.
  split.
  - intros Hnil. apply He, stock_due_iff. right. left. congruence.
  - intros Hnil scr' st'' Hr'. apply (Hn _ _ Hr'), news_due_iff.
    right. left. congruence.
Qed.


Lemma idle_wait_ignores fuel i (keys : nat -> list ascii) st :
  (forall j, quiet (keys j) = true) ->
  idle_wait fuel i keys st = idle_wait fuel i (fun _ => []) st.
Proof.
  intros Hk. revert i st. induction fuel as [|fuel IH]; intros i st;
    cbn [idle_wait]; [reflexivity|].
  destruct (stop_flag st); [reflexivity|].
  rewrite (key_listener_quiet _ _ (Hk i)). cbn [key_listener fold_left].
  apply IH.
Qed.

(** X20.  Keys other than 'q' and 'w' (in either case) have no effect: a
    tick during which only such keys are read is the tick with no key
    read. *)
Theorem other_keys_are_ignored e st :
  quiet (keys_crypto e) = true -> quiet (keys_stocks e) = true ->
  quiet (keys_news e) = true -> (forall i, quiet (keys_sleep e i) = true) ->
  run_tick e st = run_tick (without_keys e) st.
Proof.
  intros Hk0 Hk1 Hk2 Hk3. rewrite !tick_unfold. cbv zeta.
  cbn [without_keys keys_crypto keys_stocks keys_news keys_sleep gate].
  rewrite (key_listener_quiet _ _ Hk0). cbn [key_listener fold_left].
  change (refresh_stocks (without_keys e)) with (refresh_stocks e).
  destruct (refresh_stocks e _ _) as [[b3 st3]|x]; [|reflexivity].
  rewrite (key_listener_quiet _ _ Hk1).
  change (run_news (without_keys e)) with (run_news e).
  rewrite (key_listener_quiet _ _ Hk2).
  now rewrite (idle_wait_ignores _ _ _ _ Hk3).
Qed.

Lemma w_is_not_q key : is_key "w" key = true -> is_key "q" key = false.
Proof.
  destruct key as [[] [] [] [] [] [] [] []]; vm_compute; congruence.
Qed.

Lemma key_listener_stopped keys st :
  stop_flag st = true -> key_listener keys st = st.
Proof.
  intros Hs. induction keys as [|key keys IH]; [reflexivity|].
  change (key_listener (key :: keys) st)
    with (key_listener keys (key_listener_step st key)).
  unfold key_listener_step. rewrite Hs. exact IH.
Qed.

Lemma key_listener_quit keys st :
  has_key "q" keys = true -> stop_flag (key_listener keys st) = true.
Proof.
  revert st. induction keys as [|key keys IH]; intros st; [discriminate|].
  change (key_listener (key :: keys) st)
    with (key_listener keys (key_listener_step st key)).
  cbn [has_key existsb].
  destruct (stop_flag (key_listener_step st key)) eqn:Hs.
  - intros _. now rewrite key_listener_stopped.
  - intros H. apply IH. unfold has_key.
    destruct (is_key "q" key) eqn:Hq; [|exact H].
    unfold key_listener_step in Hs. rewrite Hq in Hs.
    destruct (stop_flag st) eqn:Hst; [congruence | discriminate].
Qed.

Lemma idle_wait_stopped fuel i (keys : nat -> list ascii) st :
  stop_flag st = true -> idle_wait fuel i keys st = st.
Proof. intros Hs. destruct fuel; cbn [idle_wait]; [reflexivity | now rewrite Hs]. Qed.

Lemma idle_wait_quit fuel i j (keys : nat -> list ascii) st :
  (j < fuel)%nat -> has_key "q" (keys (i + j)%nat) = true ->
  stop_flag (idle_wait fuel i keys st) = true.
Proof.
  revert i j st. induction fuel as [|fuel IH]; intros i j st Hj Hq; [lia|].
  cbn [idle_wait]. destruct (stop_flag st) eqn:Hs; [exact Hs|].
  destruct j as [|j].
  - rewrite Nat.add_0_r in Hq. rewrite idle_wait_stopped; [|];
      now apply key_listener_quit.
  - apply (IH (S i) j); [lia|].
    replace (S i + j)%nat with (i + S j)%nat by lia. exact Hq.
Qed.

Lemma stop_survives_refresh e force st b st3 :
  refresh_stocks e force st = Ok (b, st3) -> stop_flag st3 = stop_flag st.
Proof. intros H. now destruct (refresh_stocks_ok _ _ _ _ _ H) as (_ & -> & _). Qed.

(** X21.  A 'q' read at any moment of a tick that ends normally is not
    lost: the stop flag is set at the end of the tick and the loop runs no
    further tick, whatever input is still to come. *)
Theorem quit_ends_the_loop e st scr st' rest :
  stop_flag st = false ->
  snd (run_tick e st) = Ok (scr, st') ->
  has_key "q" (keys_crypto e) = true \/ has_key "q" (keys_stocks e) = true
  \/ has_key "q" (keys_news e) = true
  \/ (exists j, (j < 60)%nat /\ has_key "q" (keys_sleep e j) = true) ->
  stop_flag st' = true
  /\ run_loop (e :: rest) st = ([scr], Ok st').
Proof.
  intros Hstop Hr Hq.
  assert (Hs' : stop_flag st' = true).
  { destruct (tick_ok _ _ _ _ _ _ _ _ Hr) as (b3 & st3 & Hs & _ & _ & ->).
    cbv zeta.
    set (pending := manual_refresh_flag (key_listener (keys_crypto e) st)) in *.
    set (st1 := key_listener (keys_crypto e) st) in *.
    set (st4 := key_listener (keys_stocks e) st3).
    set (r := run_news e pending st4).
    set (st6 := key_listener (keys_news e) (snd r)).
    assert (H3 : stop_flag st1 = true -> stop_flag st3 = true).
    { intros H. rewrite (stop_survives_refresh _ _ _ _ _ Hs).
      now rewrite (proj1 (proj2 (proj2 (consume_manual_spec st1)))). }
    assert (H4 : stop_flag st3 = true -> stop_flag st4 = true).
    { intros H. unfold st4. now rewrite key_listener_stopped. }
    assert (H5 : stop_flag st4 = true -> stop_flag (snd r) = true).
    { intros H. unfold r.
      now rewrite (proj1 (proj2 (refresh_news_spec hash backend
                     format_news_time e pending st4))). }
    assert (H6 : stop_flag (snd r) = true -> stop_flag st6 = true).
    { intros H. unfold st6. now rewrite key_listener_stopped. }
    assert (H7 : stop_flag st6 = true ->
                 stop_flag (idle_wait 60 0 (keys_sleep e) st6) = true).
    { intros H. now rewrite idle_wait_stopped. }
    destruct Hq as [Hq|[Hq|[Hq|(j & Hj & Hq)]]].
    - apply H7, H6, H5, H4, H3. now apply key_listener_quit.
    - apply H7, H6, H5. now apply key_listener_quit.
    - apply H7. now apply key_listener_quit.
    - now apply (idle_wait_quit 60 0 j). }
  split; [exact Hs'|].
  cbn [main_loop]. rewrite Hstop, Hr.
  destruct rest as [|e2 rest]; cbn [main_loop]; [reflexivity|].
  now rewrite Hs'.
Qed.


Lemma key_listener_no_quit keys st :
  has_key "q" keys = false ->
  stop_flag (key_listener keys st) = stop_flag st.
Proof.
  revert st. induction keys as [|key keys IH]; intros st; [reflexivity|].
  change (key_listener (key :: keys) st)
    with (key_listener keys (key_listener_step st key)).
  cbn [has_key existsb]. intros H. apply orb_false_elim in H as [Hq Hk].
  rewrite (IH _ Hk). unfold key_listener_step. rewrite Hq.
  destruct (stop_flag st) eqn:Hs; [exact Hs|].
  now destruct (is_key "w" key).
Qed.

Lemma key_listener_manual keys st :
  stop_flag st = false -> has_key "q" keys = false ->
  has_key "w" keys = true ->
  manual_refresh_flag (key_listener keys st) = true
  /\ show_more_news (key_listener keys st) = true.
Proof.
  revert st. induction keys as [|key keys IH]; intros st Hs Hq Hw;
    [discriminate|].
  change (key_listener (key :: keys) st)
    with (key_listener keys (key_listener_step st key)).
  cbn [has_key existsb] in Hq, Hw. apply orb_false_elim in Hq as [Hq Hqk].
  destruct (is_key "w" key) eqn:Hk.
  - destruct (manual_key_sets_flags st key Hs Hk) as (Hm & Hsh).
    destruct (key_listener_keeps_pending keys (key_listener_step st key))
      as (K1 & K2). split; [now apply K1 | now apply K2].
  - apply IH; [|exact Hqk | exact Hw].
    unfold key_listener_step. now rewrite Hs, Hq, Hk.
Qed.

Lemma idle_wait_keeps_pending fuel i (keys : nat -> list ascii) st :
  manual_refresh_flag st = true -> show_more_news st = true ->
  manual_refresh_flag (idle_wait fuel i keys st) = true
  /\ show_more_news (idle_wait fuel i keys st) = true.
Proof.
  revert i st. induction fuel as [|fuel IH]; intros i st Hm Hs;
    cbn [idle_wait]; [now split|].
  destruct (stop_flag st); [now split|].
  rewrite Hm, Hs, andb_false_r.
  destruct (key_listener_keeps_pending (keys i) st) as (K1 & K2).
  apply IH; [now apply K1 | now apply K2].
Qed.

Lemma idle_wait_manual fuel i j (keys : nat -> list ascii) st :
  stop_flag st = false ->
  (forall k, has_key "q" (keys k) = false) ->
  (j < fuel)%nat -> has_key "w" (keys (i + j)%nat) = true ->
  manual_refresh_flag (idle_wait fuel i keys st) = true
  /\ show_more_news (idle_wait fuel i keys st) = true.
Proof.
  intros Hs Hq. revert i j st Hs.
  induction fuel as [|fuel IH]; intros i j st Hs Hj Hw; [lia|].
  cbn [idle_wait].
  set (st1 := if (i =? 30)%nat && show_more_news st
                 && negb (manual_refresh_flag st)
              then set_flags (stop_flag st) (manual_refresh_flag st) false st
              else st).
  rewrite Hs.
  assert (Hs1 : stop_flag st1 = false).
  { unfold st1. now destruct ((i =? 30)%nat && show_more_news st
                              && negb (manual_refresh_flag st)). }
  destruct j as [|j].
  - rewrite Nat.add_0_r in Hw.
    destruct (key_listener_manual (keys i) st1 Hs1 (Hq i) Hw) as (Hm & Hsh).
    now apply idle_wait_keeps_pending.
  - apply (IH (S i) j); [|lia|].
    + now rewrite (key_listener_no_quit _ _ (Hq i)).
    + replace (S i + j)%nat with (i + S j)%nat by lia. exact Hw.
Qed.

Lemma idle_wait_no_quit fuel i (keys : nat -> list ascii) st :
  (forall k, has_key "q" (keys k) = false) ->
  stop_flag (idle_wait fuel i keys st) = stop_flag st.
Proof.
  intros Hq. revert i st. induction fuel as [|fuel IH]; intros i st;
    cbn [idle_wait]; [reflexivity|].
  destruct (stop_flag st) eqn:Hs; [exact Hs|].
  rewrite IH, (key_listener_no_quit _ _ (Hq i)).
  now destruct ((i =? 30)%nat && show_more_news st
                && negb (manual_refresh_flag st)).
Qed.

(** X22.  A manual refresh keyed in during any second of the idle wait,
    with no quit, is still pending at the end of the tick, with the
    expansion flag set (the reset at second 30 spares it), and the next
    tick refetches the equities. *)
Theorem manual_refresh_during_wait_is_kept e e' st scr st' j :
  stop_flag st = false ->
  has_key "q" (keys_crypto e) = false ->
  has_key "q" (keys_stocks e) = false ->
  has_key "q" (keys_news e) = false ->
  (forall k, has_key "q" (keys_sleep e k) = false) ->
  (j < 60)%nat -> has_key "w" (keys_sleep e j) = true ->
  snd (run_tick e st) = Ok (scr, st') ->
  stop_flag st' = false
  /\ manual_refresh_flag st' = true /\ show_more_news st' = true
  /\ In Equities (fst (run_tick e' st')).
Proof.
  intros Hstop Hq0 Hq1 Hq2 Hq3 Hj Hw Hr.
  destruct (tick_ok _ _ _ _ _ _ _ _ Hr) as (b3 & st3 & Hs & _ & _ & Hst).
  cbv zeta in Hst.
  set (pending := manual_refresh_flag (key_listener (keys_crypto e) st)) in *.
  set (r := run_news e pending (key_listener (keys_stocks e) st3)) in *.
  set (st6 := key_listener (keys_news e) (snd r)) in *.
  assert (H6 : stop_flag st6 = false).
  { unfold st6. rewrite (key_listener_no_quit _ _ Hq2). unfold r.
    rewrite (proj1 (proj2 (refresh_news_spec hash backend
               format_news_time e pending _))).
    rewrite (key_listener_no_quit _ _ Hq1).
    rewrite (stop_survives_refresh _ _ _ _ _ Hs).
    rewrite (proj1 (proj2 (proj2 (consume_manual_spec _)))).
    now rewrite (key_listener_no_quit _ _ Hq0). }
  destruct (idle_wait_manual 60 0 j (keys_sleep e) st6 H6 Hq3 Hj Hw)
    as (Hm & Hsh). rewrite <- Hst in Hm, Hsh.
  assert (Hs' : stop_flag st' = false).
  { rewrite Hst. now rewrite (idle_wait_no_quit _ _ _ _ Hq3). }
  split; [exact Hs'|]. split; [exact Hm|]. split; [exact Hsh|].
  destruct (tick_classes parse_float hash backend format_news_time e' st')
    as (_ & He & _). apply He. unfold stock_due.
  rewrite (proj1 (key_listener_keeps_pending (keys_crypto e') st') Hm).
  apply orb_true_r.
Qed.

(** X23.  While a manual refresh is pending, a further 'w' changes nothing:
    several presses before the loop reads the flag count as one. *)
Theorem second_manual_refresh_changes_nothing st key :
  manual_refresh_flag st = true -> show_more_news st = true ->
  is_key "w" key = true ->
  key_listener_step st key = st.
Proof.
  intros Hm Hs Hw. unfold key_listener_step.
  rewrite (w_is_not_q key Hw), Hw.
  destruct (stop_flag st) eqn:Hstop; [reflexivity|].
  destruct st; simpl in *; subst; reflexivity.
Qed.

End LoopProperties.

(** * Properties of the two-column layout *)

Section LayoutProperties.

Import Layout.
Local Open Scope list_scope.
Local Open Scope nat_scope.

Context {A : Type}.
Variable fmt : A -> string.

Lemma cells_inside (filler : string) (column : list A) :
  map (cell fmt filler column) (seq 0 (length column)) = map fmt column.
Proof.
  induction column as [|r column IH]; [reflexivity|].
  cbn [length]. rewrite <- cons_seq, <- seq_shift, map_cons, map_map.
  cbn [map]. f_equal. exact IH.
Qed.

Lemma cells_outside (filler : string) (column : list A) start k :
  length column <= start ->
  map (cell fmt filler column) (seq start k) = repeat filler k.
Proof.
  revert start. induction k as [|k IH]; intros start Hs; [reflexivity|].
  cbn [seq map repeat]. rewrite IH by lia. f_equal.
  unfold cell. now rewrite (proj2 (nth_error_None column start) Hs).
Qed.

Lemma cells_of_column (filler : string) (column : list A) k :
  map (cell fmt filler column) (seq 0 (length column + k))
  = map fmt column ++ repeat filler k.
Proof.
  rewrite seq_app, map_app, cells_inside. f_equal.
  now apply cells_outside.
Qed.

(** X24.  The table is printed in two columns of the same number of lines:
    the left column holds the first half of the rows, rounded up, the right
    column the rest, followed by one empty cell when the number of rows is
    odd.  Every row is printed exactly once, and the 34-space filler of the
    left column is never used. *)
Theorem two_columns_hold_every_row_once (rows : list A) :
  let mid := mid_point (length rows) in
  let '(left_strings, right_strings) := column_strings fmt rows in
  left_strings = map fmt (firstn mid rows)
  /\ right_strings
     = map fmt (skipn mid rows) ++ repeat ""%string (length rows mod 2)
  /\ length left_strings = mid /\ length right_strings = mid
  /\ left_strings ++ firstn (length rows - mid) right_strings
     = map fmt rows.
Proof.
  cbv zeta. unfold column_strings.
  set (mid := mid_point (length rows)).
  assert (Hmid : 2 * mid = length rows + length rows mod 2).
  { unfold mid, mid_point.
    pose proof (Nat.div_mod_eq (length rows + 1) 2).
    pose proof (Nat.div_mod_eq (length rows) 2).
    pose proof (Nat.mod_upper_bound (length rows + 1) 2).
    pose proof (Nat.mod_upper_bound (length rows) 2).
    assert (Hm : (length rows + 1) mod 2 = 1 - length rows mod 2).
    { rewrite Nat.Div0.add_mod by lia.
      destruct (length rows mod 2) as [|[|m]]; try reflexivity. lia. }
    lia. }
  pose proof (Nat.mod_upper_bound (length rows) 2 ltac:(lia)) as Hm2.
  assert (Hl : length (firstn mid rows) = mid)
    by (rewrite length_firstn; lia).
  assert (Hr : length (skipn mid rows) = length rows - mid)
    by apply length_skipn.
  assert (Hmax : Nat.max (length (firstn mid rows)) (length (skipn mid rows))
                 = mid) by lia.
  rewrite Hmax.
  assert (HL : map (cell fmt (spaces 34) (firstn mid rows)) (seq 0 mid)
               = map fmt (firstn mid rows)).
  { rewrite <- Hl at 2. apply cells_inside. }
  assert (HR : map (cell fmt ""%string (skipn mid rows)) (seq 0 mid)
               = map fmt (skipn mid rows)
                 ++ repeat ""%string (length rows mod 2)).
  { replace mid with (length (skipn mid rows) + length rows mod 2) at 2
      by lia.
    apply cells_of_column. }
  rewrite HL, HR. split; [reflexivity|]. split; [reflexivity|].
  split; [now rewrite length_map|].
  split; [rewrite length_app, length_map, repeat_length; lia|].
  rewrite firstn_app, length_map, Hr, Nat.sub_diag. cbn [firstn].
  rewrite app_nil_r.
  rewrite (firstn_all2 (map fmt (skipn mid rows)))
    by (rewrite length_map; lia).
  now rewrite <- map_app, firstn_skipn.
Qed.

End LayoutProperties.

(** * The last marked line of the ticker file *)

Section MarkProperties.

Import Ticker TickerShape.
Local Open Scope list_scope.

Variable upper : string -> string.

Lemma last_mark_app t (l1 l2 : list string) found :
  last_mark upper t (l1 ++ l2) found
  = last_mark upper t l2 (last_mark upper t l1 found).
Proof.
  revert found. induction l1 as [|line l1 IH]; intros found; [reflexivity|].
  cbn [app last_mark]. destruct (line_entry upper line) as [[t' mark]|];
    [|apply IH].
  destruct (String.eqb t' t && negb (String.length mark =? 0)%nat); apply IH.
Qed.

Lemma last_mark_unmarked t (post : list string) found :
  forallb (fun l => negb (gives_mark upper t l)) post = true ->
  last_mark upper t post found = found.
Proof.
  revert found. induction post as [|line post IH]; intros found; [reflexivity|].
  cbn [forallb last_mark]. intros H. apply andb_prop in H as [Hl Hp].
  unfold gives_mark in Hl.
  destruct (line_entry upper line) as [[t' mark]|]; [|now apply IH].
  apply negb_true_iff in Hl. rewrite Hl. now apply IH.
Qed.

(** X15.  The mark of a ticker is the one given by the last line that names
    the ticker with a second column 1 or 2: lines after it that name the
    ticker without such a column do not clear the mark, and marks given
    before it are overwritten. *)
Theorem last_marked_line_decides_mark (pre post : list string)
    (line t m : string) :
  line_entry upper line = Some (t, m) ->
  (String.length m =? 0)%nat = false ->
  forallb (fun l => negb (gives_mark upper t l)) post = true ->
  snd (read_stocks upper (Some (pre ++ line :: post))) !! t = Some m.
Proof.
  intros He Hm Hpost. unfold read_stocks.
  rewrite read_lines_marks, last_mark_app. cbn [last_mark].
  rewrite He, String.eqb_refl, Hm. cbn [negb andb].
  now apply last_mark_unmarked.
Qed.

End MarkProperties.

Lemma last_marked_line_decides_mark_witness :
  Ticker.line_entry MoreExamples.upper_ascii "aapl 1" = Some ("AAPL", "🚀")
  /\ (String.length "🚀" =? 0)%nat = false
  /\ forallb (fun l => negb (TickerShape.gives_mark MoreExamples.upper_ascii
                               "AAPL" l))
       ["msft"; "  nvda   2  x"; "aapl"; "   "] = true
  /\ snd (Ticker.read_stocks MoreExamples.upper_ascii
            (Some MoreExamples.ticker_lines)) !! "AAPL" = Some "🚀".
Proof.
  split; [reflexivity|]. split; [reflexivity|]. split; [reflexivity|].
  exact (last_marked_line_decides_mark MoreExamples.upper_ascii []
           ["msft"; "  nvda   2  x"; "aapl"; "   "] "aapl 1" "AAPL" "🚀"
           eq_refl eq_refl eq_refl).
Defined.

Lemma same_preview_shares_translation_witness :
  News.item_time MoreExamples.item_rates_may
  = News.item_time MoreExamples.item_rates_june
  /\ Text.prefix_of 50
       (Text.clean_news_content (News.item_content MoreExamples.item_rates_may))
     = Text.prefix_of 50
         (Text.clean_news_content
            (News.item_content MoreExamples.item_rates_june))
  /\ News.item_content MoreExamples.item_rates_may
     <> News.item_content MoreExamples.item_rates_june
  /\ News.get_news_key Examples.hash_run1 MoreExamples.item_rates_may
     = News.get_news_key Examples.hash_run1 MoreExamples.item_rates_june.
Proof.
  split; [reflexivity|]. split; [reflexivity|]. split; [discriminate|].
  exact (proj1 (same_preview_shares_translation Examples.hash_run1
                  Examples.echo_backend Examples.show_time
                  MoreExamples.item_rates_may MoreExamples.item_rates_june
                  ∅ Examples.fresh_world eq_refl eq_refl eq_refl eq_refl)).
Defined.

Lemma missing_quote_gives_empty_row_witness :
  Stocks.fetch_all_stocks MoreExamples.two_tickers ∅
    (Stocks.QuotesDict MoreExamples.aapl_only)
    "regularMarketPrice" "regularMarketChangePercent"
  = Ok MoreExamples.two_rows
  /\ MoreExamples.two_tickers !! 1%nat = Some "GOOG"
  /\ MoreExamples.aapl_only !! "GOOG" = None
  /\ exists r, MoreExamples.two_rows !! 1%nat = Some r
       /\ Stocks.last_close r = None /\ Stocks.price r = None
       /\ Stocks.change r = None.
Proof.
  assert (H1 : Stocks.fetch_all_stocks MoreExamples.two_tickers ∅
                 (Stocks.QuotesDict MoreExamples.aapl_only)
                 "regularMarketPrice" "regularMarketChangePercent"
               = Ok MoreExamples.two_rows) by (vm_compute; reflexivity).
  assert (H3 : MoreExamples.aapl_only !! "GOOG" = None)
    by (vm_compute; reflexivity).
  split; [exact H1|]. split; [reflexivity|]. split; [exact H3|].
  exact (missing_quote_gives_empty_row MoreExamples.two_tickers ∅
           MoreExamples.aapl_only "regularMarketPrice"
           "regularMarketChangePercent" MoreExamples.two_rows 1%nat "GOOG"
           H1 eq_refl (or_introl H3)).
Defined.

Lemma last_close_is_regular_price_witness :
  (let '(_, pk, ck) := PriceResolver.detect_session 10 0 in
   Stocks.fetch_all_stocks MoreExamples.two_tickers ∅
     (Stocks.QuotesDict MoreExamples.aapl_only) pk ck)
  = Ok MoreExamples.two_rows
  /\ Forall (fun r =>
               (Stocks.last_close r <> None -> Stocks.price r <> None)
               /\ (PriceResolver.session_of_clock 10 0 = PriceResolver.Regular ->
                   Stocks.last_close r <> None ->
                   Stocks.price r = Stocks.last_close r))
       MoreExamples.two_rows.
Proof.
  assert (H1 : (let '(_, pk, ck) := PriceResolver.detect_session 10 0 in
                Stocks.fetch_all_stocks MoreExamples.two_tickers ∅
                  (Stocks.QuotesDict MoreExamples.aapl_only) pk ck)
               = Ok MoreExamples.two_rows) by (vm_compute; reflexivity).
  split; [exact H1|].
  exact (last_close_is_regular_price MoreExamples.two_tickers ∅
           (Stocks.QuotesDict MoreExamples.aapl_only) 10 0
           MoreExamples.two_rows H1).
Defined.

Lemma blank_file_gives_empty_table_witness :
  forallb Text.is_blank ["   "; ""] = true
  /\ Stocks.fetch_all_stocks
       (fst (Ticker.read_stocks MoreExamples.upper_ascii (Some ["   "; ""])))
       (snd (Ticker.read_stocks MoreExamples.upper_ascii (Some ["   "; ""])))
       (Stocks.QuotesRaise (V:=Q) "ConnectionError")
       "regularMarketPrice" "regularMarketChangePercent"
     = Ok [].
Proof.
  split; [reflexivity|].
  exact (blank_file_gives_empty_table MoreExamples.upper_ascii
           (Some ["   "; ""]) (Stocks.QuotesRaise "ConnectionError")
           "regularMarketPrice" "regularMarketChangePercent" eq_refl).
Defined.

(** ** Further ticks on concrete inputs *)

Lemma class_not_fetched_is_unchanged_witness :
  snd (Examples.run_tick MoreExamples.soon_env
         (snd MoreExamples.first_result))
  = Ok (fst MoreExamples.soon_result, snd MoreExamples.soon_result)
  /\ Monitor.stock_rows (fst MoreExamples.soon_result)
     = Monitor.stock_df (snd MoreExamples.first_result)
  /\ Monitor.last_stock_update (snd MoreExamples.soon_result)
     = Monitor.last_stock_update (snd MoreExamples.first_result).
Proof.
  assert (Hr : snd (Examples.run_tick MoreExamples.soon_env
                      (snd MoreExamples.first_result))
               = Ok (fst MoreExamples.soon_result,
                     snd MoreExamples.soon_result))
    by (vm_compute; reflexivity).
  split; [exact Hr|].
  apply (proj1 (class_not_fetched_is_unchanged Examples.parse_price
                  Examples.hash_run1 Examples.echo_backend Examples.show_time
                  MoreExamples.soon_env (snd MoreExamples.first_result)
                  (fst MoreExamples.soon_result)
                  (snd MoreExamples.soon_result) Hr)).
  vm_compute. intros [H|[]]. discriminate.
Defined.

Lemma fetched_class_rests_300_seconds_witness :
  snd (Examples.run_tick MoreExamples.first_env MoreExamples.start_state)
  = Ok (fst MoreExamples.first_result, snd MoreExamples.first_result)
  /\ Monitor.no_manual (Monitor.keys_stocks MoreExamples.first_env) = true
  /\ Monitor.no_manual (Monitor.keys_news MoreExamples.first_env) = true
  /\ (forall i, Monitor.no_manual
                  (Monitor.keys_sleep MoreExamples.first_env i) = true)
  /\ Monitor.no_manual (Monitor.keys_crypto MoreExamples.soon_env) = true
  /\ Monitor.now MoreExamples.soon_env - Monitor.now MoreExamples.first_env
     <= 300
  /\ ~ In Monitor.Equities
         (fst (Examples.run_tick MoreExamples.soon_env
                 (snd MoreExamples.first_result))).
Proof.
  assert (Hr : snd (Examples.run_tick MoreExamples.first_env
                      MoreExamples.start_state)
               = Ok (fst MoreExamples.first_result,
                     snd MoreExamples.first_result))
    by (vm_compute; reflexivity).
  assert (Ht : Monitor.now MoreExamples.soon_env
               - Monitor.now MoreExamples.first_env <= 300)
    by (vm_compute; discriminate).
  split; [exact Hr|]. split; [reflexivity|]. split; [reflexivity|].
  split; [intros i; reflexivity|]. split; [reflexivity|]. split; [exact Ht|].
  apply (proj1 (fetched_class_rests_300_seconds Examples.parse_price
                  Examples.hash_run1 Examples.echo_backend Examples.show_time
                  MoreExamples.first_env MoreExamples.soon_env
                  MoreExamples.start_state
                  (fst MoreExamples.first_result)
                  (snd MoreExamples.first_result)
                  Hr eq_refl eq_refl (fun i => eq_refl) eq_refl Ht)).
  - vm_compute. tauto.
  - vm_compute. discriminate.
Defined.

Lemma empty_snapshot_is_refetched_every_tick_witness :
  snd (Examples.run_tick MoreExamples.failing_env MoreExamples.start_state)
  = Ok (fst MoreExamples.failing_result, snd MoreExamples.failing_result)
  /\ Monitor.news_lines (fst MoreExamples.failing_result) = []
  /\ In Monitor.NewsFeed
       (fst (Examples.run_tick MoreExamples.soon_env
               (snd MoreExamples.failing_result))).
Proof.
  assert (Hr : snd (Examples.run_tick MoreExamples.failing_env
                      MoreExamples.start_state)
               = Ok (fst MoreExamples.failing_result,
                     snd MoreExamples.failing_result))
    by (vm_compute; reflexivity).
  assert (Hr' : snd (Examples.run_tick MoreExamples.soon_env
                       (snd MoreExamples.failing_result))
                = Ok (fst MoreExamples.retry_result,
                      snd MoreExamples.retry_result))
    by (vm_compute; reflexivity).
  split; [exact Hr|]. split; [reflexivity|].
  exact (proj2 (empty_snapshot_is_refetched_every_tick Examples.parse_price
                  Examples.hash_run1 Examples.echo_backend Examples.show_time
                  MoreExamples.failing_env MoreExamples.soon_env
                  MoreExamples.start_state
                  (fst MoreExamples.failing_result)
                  (snd MoreExamples.failing_result) Hr)
           eq_refl _ _ Hr').
Defined.

Lemma other_keys_are_ignored_witness :
  Monitor.quiet (Monitor.keys_crypto MoreExamples.noisy_env) = true
  /\ Monitor.quiet (Monitor.keys_stocks MoreExamples.noisy_env) = true
  /\ Monitor.quiet (Monitor.keys_news MoreExamples.noisy_env) = true
  /\ (forall i, Monitor.quiet
                  (Monitor.keys_sleep MoreExamples.noisy_env i) = true)
  /\ Examples.run_tick MoreExamples.noisy_env MoreExamples.start_state
     = Examples.run_tick (MonitorShape.without_keys MoreExamples.noisy_env)
         MoreExamples.start_state.
Proof.
  assert (Hk : forall i, Monitor.quiet
                 (Monitor.keys_sleep MoreExamples.noisy_env i) = true).
  { intros i. cbn [Monitor.keys_sleep MoreExamples.noisy_env
                   MoreExamples.keyed_env].
    unfold MoreExamples.at_second. destruct (i =? 12)%nat; reflexivity. }
  split; [reflexivity|]. split; [reflexivity|]. split; [reflexivity|].
  split; [exact Hk|].
  exact (other_keys_are_ignored Examples.parse_price Examples.hash_run1
           Examples.echo_backend Examples.show_time MoreExamples.noisy_env
           MoreExamples.start_state eq_refl eq_refl eq_refl Hk).
Defined.

Lemma quit_ends_the_loop_witness :
  Monitor.stop_flag MoreExamples.start_state = false
  /\ snd (Examples.run_tick MoreExamples.quit_env MoreExamples.start_state)
     = Ok (fst MoreExamples.quit_result, snd MoreExamples.quit_result)
  /\ MonitorShape.has_key "q"
       (Monitor.keys_sleep MoreExamples.quit_env 5) = true
  /\ Monitor.stop_flag (snd MoreExamples.quit_result) = true
  /\ Monitor.main_loop Examples.parse_price Examples.hash_run1
       Examples.echo_backend Examples.show_time
       [MoreExamples.quit_env; MoreExamples.soon_env]
       MoreExamples.start_state
     = ([fst MoreExamples.quit_result], Ok (snd MoreExamples.quit_result)).
Proof.
  assert (Hr : snd (Examples.run_tick MoreExamples.quit_env
                      MoreExamples.start_state)
               = Ok (fst MoreExamples.quit_result,
                     snd MoreExamples.quit_result))
    by (vm_compute; reflexivity).
  assert (H5 : (5 < 60)%nat) by lia.
  split; [reflexivity|]. split; [exact Hr|]. split; [reflexivity|].
  exact (quit_ends_the_loop Examples.parse_price Examples.hash_run1
           Examples.echo_backend Examples.show_time MoreExamples.quit_env
           MoreExamples.start_state (fst MoreExamples.quit_result)
           (snd MoreExamples.quit_result) [MoreExamples.soon_env]
           eq_refl Hr
           (or_intror (or_intror (or_intror
              (ex_intro _ 5%nat (conj H5 eq_refl)))))).
Defined.

Lemma manual_refresh_during_wait_is_kept_witness :
  Monitor.stop_flag MoreExamples.start_state = false
  /\ (forall k, MonitorShape.has_key "q"
                  (Monitor.keys_sleep MoreExamples.manual_env k) = false)
  /\ MonitorShape.has_key "w"
       (Monitor.keys_sleep MoreExamples.manual_env 40) = true
  /\ snd (Examples.run_tick MoreExamples.manual_env MoreExamples.start_state)
     = Ok (fst MoreExamples.manual_result, snd MoreExamples.manual_result)
  /\ Monitor.manual_refresh_flag (snd MoreExamples.manual_result) = true
  /\ Monitor.show_more_news (snd MoreExamples.manual_result) = true.
Proof.
  assert (Hq : forall k, MonitorShape.has_key "q"
                 (Monitor.keys_sleep MoreExamples.manual_env k) = false).
  { intros k. cbn [Monitor.keys_sleep MoreExamples.manual_env
                   MoreExamples.keyed_env].
    unfold MoreExamples.at_second. destruct (k =? 40)%nat; reflexivity. }
  assert (Hr : snd (Examples.run_tick MoreExamples.manual_env
                      MoreExamples.start_state)
               = Ok (fst MoreExamples.manual_result,
                     snd MoreExamples.manual_result))
    by (vm_compute; reflexivity).
  assert (H40 : (40 < 60)%nat) by lia.
  split; [reflexivity|]. split; [exact Hq|]. split; [reflexivity|].
  split; [exact Hr|].
  pose proof (manual_refresh_during_wait_is_kept Examples.parse_price
                Examples.hash_run1 Examples.echo_backend Examples.show_time
                MoreExamples.manual_env MoreExamples.soon_env
                MoreExamples.start_state (fst MoreExamples.manual_result)
                (snd MoreExamples.manual_result) 40%nat
                eq_refl eq_refl eq_refl eq_refl Hq H40 eq_refl Hr)
    as H.
  exact (conj (proj1 (proj2 H)) (proj1 (proj2 (proj2 H)))).
Defined.

Lemma second_manual_refresh_changes_nothing_witness :
  Monitor.manual_refresh_flag Examples.pending_state = true
  /\ Monitor.show_more_news Examples.pending_state = true
  /\ Monitor.is_key "w" "W" = true
  /\ Monitor.key_listener_step Examples.pending_state "W"
     = Examples.pending_state.
Proof.
  split; [reflexivity|]. split; [reflexivity|]. split; [reflexivity|].
  exact (second_manual_refresh_changes_nothing Examples.pending_state "W"
           eq_refl eq_refl eq_refl).
Defined.
